(** * A lossless delta codec for RGB images: model of [src/main.py]

    The Python module packs an image into a bit stream (a 32-bit header followed
    by three channel substreams of 5-bit delta codes and 9-bit literal codes)
    and reads it back.  This file embeds [encode_bits], the class [BitArray],
    [encode_image] and [decode_image] as executable functions over [Z] and
    lists, with Python's exceptions made explicit, and proves properties of
    them. *)

From Stdlib Require Import ZArith List Bool Lia.
From stdpp Require Import base list.
Import ListNotations.
Local Open Scope Z_scope.

(** ** Python exceptions and the error monad *)

(** The exceptions the modelled statements can raise: [%] by zero, a negative
    shift count or a [bytes] element outside [range(256)], and a list index
    out of range. *)
Inductive exn : Type :=
| ZeroDivisionError
| ValueError
| IndexError.

Inductive result (A : Type) : Type :=
| Ok (a : A)
| Raise (e : exn).

Arguments Ok {A} a.
Arguments Raise {A} e.

Definition bind {A B : Type} (m : result A) (k : A -> result B) : result B :=
  match m with
  | Ok a => k a
  | Raise e => Raise e
  end.

Notation "'let*' x ':=' m 'in' k" :=
  (bind m (fun x => k))
  (at level 10, x pattern, m at level 100, k at level 200).

(** ** Python primitives used by the module *)

(** [bool(x)] of an integer. *)
Definition py_bool (x : Z) : bool := negb (x =? 0).

(** [a % b]: floor modulo, raising on a zero divisor. *)
Definition py_mod (a b : Z) : result Z :=
  if b =? 0 then Raise ZeroDivisionError else Ok (a mod b).

(** [a << n]: a negative shift count raises [ValueError]. *)
Definition py_lshift (a n : Z) : result Z :=
  if n <? 0 then Raise ValueError else Ok (Z.shiftl a n).

(** Position denoted by the subscript [i] in a list of the given shape:
    negative subscripts count from the end, anything else out of range
    raises [IndexError]. *)
Definition py_index {A : Type} (l : list A) (i : Z) : result nat :=
  let n := Z.of_nat (length l) in
  let j := if i <? 0 then i + n else i in
  if (0 <=? j) && (j <? n) then Ok (Z.to_nat j) else Raise IndexError.

(** [l[i]] *)
Definition getitem {A : Type} (l : list A) (i : Z) : result A :=
  let* j := py_index l i in
  match l !! j with
  | Some x => Ok x
  | None => Raise IndexError
  end.

(** [l[i] = x] *)
Definition setitem {A : Type} (l : list A) (i : Z) (x : A) : result (list A) :=
  let* j := py_index l i in
  Ok (<[j := x]> l).

(** Bound of a slice: negative bounds count from the end, and every bound is
    clamped to [0, len]. *)
Definition slice_bound (n i : Z) : Z :=
  if i <? 0 then Z.max (i + n) 0 else Z.min i n.

(** [l[start:stop]]: never raises; out-of-range bounds are clamped. *)
Definition py_slice {A : Type} (l : list A) (start stop : Z) : list A :=
  let n := Z.of_nat (length l) in
  let lo := slice_bound n start in
  let hi := slice_bound n stop in
  take (Z.to_nat (hi - lo)) (drop (Z.to_nat lo) l).

(** [bytes([x])]: the element must be in [range(256)]. *)
Definition py_bytes1 (x : Z) : result (list Z) :=
  if (0 <=? x) && (x <? 256) then Ok [x] else Raise ValueError.

(** [int.from_bytes(bs, 'big')] *)
Definition int_from_bytes (bs : list Z) : Z :=
  fold_left (fun acc b => acc * 256 + b) bs 0.

(** A [bytes] object holds integers of [range(256)]. *)
Definition is_bytes (bs : list Z) : bool :=
  forallb (fun b => (0 <=? b) && (b <? 256)) bs.

(** ** [encode_bits] *)

(** The loop of [encode_bits]: [n] iterations remain, [bits] is the list built
    so far (least significant bit first). *)
Fixpoint encode_bits_loop (n : nat) (value : Z) (bits : list bool) : list bool :=
  match n with
  | O => bits
  | S n' =>
      encode_bits_loop n' (Z.shiftr value 1) (bits ++ [py_bool (Z.land value 1)])
  end.

Definition encode_bits (value length : Z) : list bool :=
  rev (encode_bits_loop (Z.to_nat length) value []).

(** ** class [BitArray] *)

Module BitArray.

Record t : Type := mk {
  data : list Z;
  buffer : list bool;
  index : Z
}.

(** [__init__] *)
Definition init (d : list Z) : t := mk d (repeat false 8) 0.

Definition reset_buffer (self : t) : t :=
  mk (data self) (repeat false 8) 0.

(** The expression
    [buffer[0] << 7 | buffer[1] << 6 | ... | buffer[6] << 1 | buffer[7]]. *)
Definition pack_buffer (buf : list bool) : result Z :=
  let* b0 := getitem buf 0 in
  let* b1 := getitem buf 1 in
  let* b2 := getitem buf 2 in
  let* b3 := getitem buf 3 in
  let* b4 := getitem buf 4 in
  let* b5 := getitem buf 5 in
  let* b6 := getitem buf 6 in
  let* b7 := getitem buf 7 in
  Ok (Z.lor (Z.lor (Z.lor (Z.lor (Z.lor (Z.lor (Z.lor
        (Z.shiftl (Z.b2z b0) 7)
        (Z.shiftl (Z.b2z b1) 6))
        (Z.shiftl (Z.b2z b2) 5))
        (Z.shiftl (Z.b2z b3) 4))
        (Z.shiftl (Z.b2z b4) 3))
        (Z.shiftl (Z.b2z b5) 2))
        (Z.shiftl (Z.b2z b6) 1))
        (Z.b2z b7)).

(** [self.data += bytes([<packed buffer>])] followed by [reset_buffer]. *)
Definition flush (self : t) : result t :=
  let* byte := pack_buffer (buffer self) in
  let* bs := py_bytes1 byte in
  Ok (reset_buffer (mk (data self ++ bs) (buffer self) (index self))).

(** One iteration of the loop of [add_bits]. *)
Definition add_bit (self : t) (bit : bool) : result t :=
  let* buf := setitem (buffer self) (index self) bit in
  let self := mk (data self) buf (index self + 1) in
  if index self =? 8 then flush self else Ok self.

Fixpoint add_bits (self : t) (bits : list bool) : result t :=
  match bits with
  | [] => Ok self
  | bit :: rest =>
      let* self := add_bit self bit in
      add_bits self rest
  end.

(** [to_bytes] updates the object and returns its [data]. *)
Definition to_bytes (self : t) : result (t * list Z) :=
  if index self >? 0 then
    let* self := flush self in
    Ok (self, data self)
  else Ok (self, data self).

Definition read_bits (self : t) (index length : Z) : result Z :=
  let* one_shl := py_lshift 1 length in
  let mask := one_shl - 1 in
  let start_index := index / 8 in
  let end_index := (index + length + 7) / 8 in
  let shift := (8 - (index + length)) mod 8 in
  let value := int_from_bytes (py_slice (data self) start_index end_index) in
  let value := Z.shiftr value shift in
  Ok (Z.land value mask).

End BitArray.

(** ** Module constants *)

Definition BITS_FOR_DIFF : Z := 4.
Definition DIFF_VAL : Z := BITS_FOR_DIFF - 1.
Definition DIFF_MOD : Z := Z.shiftl 1 DIFF_VAL.
Definition MAX_DIFF : Z := DIFF_MOD - 1.
Definition MIN_DIFF : Z := - DIFF_MOD.

Definition Pixel : Type := Z * Z * Z.
Definition PixelList : Type := list Pixel.

(** ** Progress reporting *)

(** The progress variables of [encode_image] and [decode_image]: [step], the
    running sample count ([encoding_index], [decoding_index]) and the
    percentages printed so far. *)
Record progress : Type := mk_progress {
  step : Z;
  sample_index : Z;
  stdout : list Z
}.

(** The block closing each iteration of both inner loops:
    [index += 1; if index % step_size == 0: step += 1; print(f'{step}%')]. *)
Definition report_progress (step_size : Z) (p : progress) : result progress :=
  let index := sample_index p + 1 in
  let* r := py_mod index step_size in
  if r =? 0 then
    let step := step p + 1 in
    Ok (mk_progress step index (stdout p ++ [step]))
  else
    Ok (mk_progress (step p) index (stdout p)).

(** ** [encode_image] *)

(** First half of the inner loop body: codes [val] against [current_value]
    and appends the code.  Returns the bit array and the new
    [current_value]. *)
Definition encode_sample (encoded_bits : BitArray.t) (current_value val : Z)
  : result (BitArray.t * Z) :=
  let delta := val - current_value in
  let current_value := val in
  let* encoded_bits :=
    if (delta <? MIN_DIFF) || (delta >? MAX_DIFF) then
      let* b := BitArray.add_bits encoded_bits [false] in
      BitArray.add_bits b (encode_bits val 8)
    else
      let* b := BitArray.add_bits encoded_bits [true] in
      let* b := BitArray.add_bits b [delta <? 0] in
      BitArray.add_bits b (encode_bits (delta mod DIFF_MOD) DIFF_VAL) in
  Ok (encoded_bits, current_value).

(** [for val in channel: ...] *)
Fixpoint encode_channel_loop (step_size : Z) (encoded_bits : BitArray.t)
  (p : progress) (current_value : Z) (channel : list Z)
  : result (BitArray.t * progress) :=
  match channel with
  | [] => Ok (encoded_bits, p)
  | val :: rest =>
      let* (encoded_bits, current_value) :=
        encode_sample encoded_bits current_value val in
      let* p := report_progress step_size p in
      encode_channel_loop step_size encoded_bits p current_value rest
  end.

(** [for channel in [red, green, blue]: current_value = 0; ...] *)
Fixpoint encode_channels (step_size : Z) (encoded_bits : BitArray.t)
  (p : progress) (channels : list (list Z)) : result (BitArray.t * progress) :=
  match channels with
  | [] => Ok (encoded_bits, p)
  | channel :: rest =>
      let* (encoded_bits, p) :=
        encode_channel_loop step_size encoded_bits p 0 channel in
      encode_channels step_size encoded_bits p rest
  end.

(** [encode_image], returning the bytes and the lines printed. *)
Definition encode_image_io (width height : Z) (pixels : PixelList)
  : result (list Z * list Z) :=
  let encoded_bits := BitArray.init [] in
  let* encoded_bits := BitArray.add_bits encoded_bits (encode_bits width 16) in
  let* encoded_bits := BitArray.add_bits encoded_bits (encode_bits height 16) in
  let red := map (fun pixel : Pixel => fst (fst pixel)) pixels in
  let green := map (fun pixel : Pixel => snd (fst pixel)) pixels in
  let blue := map (fun pixel : Pixel => snd pixel) pixels in
  let total_encoding := 3 * width * height in
  let step_size := total_encoding / 100 in
  let p := mk_progress 0 0 [] in
  let* (encoded_bits, p) :=
    encode_channels step_size encoded_bits p [red; green; blue] in
  let* (_, bytes) := BitArray.to_bytes encoded_bits in
  Ok (bytes, stdout p).

Definition encode_image (width height : Z) (pixels : PixelList) : result (list Z) :=
  let* (bytes, _) := encode_image_io width height pixels in
  Ok bytes.

(** ** [decode_image] *)

(** The nested helper [get_next_bits]: reads at the cursor [index] it captures
    and advances it.  Returns the value and the new cursor. *)
Definition get_next_bits (bits : BitArray.t) (index n : Z) : result (Z * Z) :=
  let* value := BitArray.read_bits bits index n in
  Ok (value, index + n).

(** First half of the inner loop body: reads one code and updates [value].
    Returns the new cursor and the new [value]. *)
Definition decode_sample (bits : BitArray.t) (index value : Z) : result (Z * Z) :=
  let* (flag, index) := get_next_bits bits index 1 in
  let use_difference := py_bool flag in
  if use_difference then
    let* (sign, index) := get_next_bits bits index 1 in
    let negative := py_bool sign in
    let* (difference, index) := get_next_bits bits index DIFF_VAL in
    let difference := if negative then difference - DIFF_MOD else difference in
    Ok (index, value + difference)
  else
    let* (v, index) := get_next_bits bits index 8 in
    Ok (index, v).

(** [for pixel_index in range(pixel_count): ...; channel.append(value); ...]
    with [n] iterations remaining. *)
Fixpoint decode_channel_loop (bits : BitArray.t) (step_size : Z) (n : nat)
  (index : Z) (p : progress) (value : Z) (channel : list Z)
  : result (Z * progress * list Z) :=
  match n with
  | O => Ok (index, p, channel)
  | S n' =>
      let* (index, value) := decode_sample bits index value in
      let channel := channel ++ [value] in
      let* p := report_progress step_size p in
      decode_channel_loop bits step_size n' index p value channel
  end.

(** One iteration of [for channel in [red, green, blue]]: [value = 0] and the
    inner loop over [range(pixel_count)], filling the (empty) channel. *)
Definition decode_channel (bits : BitArray.t) (step_size pixel_count : Z)
  (index : Z) (p : progress) : result (Z * progress * list Z) :=
  decode_channel_loop bits step_size (Z.to_nat pixel_count) index p 0 [].

(** [list(zip(red, green, blue))] *)
Fixpoint zip3 (red green blue : list Z) : PixelList :=
  match red, green, blue with
  | r :: red, g :: green, b :: blue => (r, g, b) :: zip3 red green blue
  | _, _, _ => []
  end.

(** [decode_image], returning the image and the lines printed. *)
Definition decode_image_io (data : list Z) : result (Z * Z * PixelList * list Z) :=
  let bits := BitArray.init data in
  let* width := BitArray.read_bits bits 0 16 in
  let* height := BitArray.read_bits bits 16 16 in
  let pixel_count := width * height in
  let index := 32 in
  let total_decoding := 3 * width * height in
  let step_size := total_decoding / 100 in
  let p := mk_progress 0 0 [] in
  let* (index, p, red) := decode_channel bits step_size pixel_count index p in
  let* (index, p, green) := decode_channel bits step_size pixel_count index p in
  let* (index, p, blue) := decode_channel bits step_size pixel_count index p in
  Ok (width, height, zip3 red green blue, stdout p).

Definition decode_image (data : list Z) : result (Z * Z * PixelList) :=
  let* (width, height, pixels, _) := decode_image_io data in
  Ok (width, height, pixels).

(** ** Specification vocabulary *)

Definition valid_channel (v : Z) : bool := (0 <=? v) && (v <=? 255).

Definition valid_pixel (p : Pixel) : bool :=
  let '(r, g, b) := p in valid_channel r && valid_channel g && valid_channel b.

(** A valid image: both dimensions fit 16 unsigned bits, there are exactly
    [width * height] pixels and every channel value is in [0, 255]. *)
Definition valid_image (width height : Z) (pixels : PixelList) : bool :=
  (0 <=? width) && (width <=? 65535) && (0 <=? height) && (height <=? 65535)
  && (Z.of_nat (length pixels) =? width * height)
  && forallb valid_pixel pixels.

(** The bits of one byte, most significant first. *)
Definition byte_bits (b : Z) : list bool :=
  [Z.testbit b 7; Z.testbit b 6; Z.testbit b 5; Z.testbit b 4;
   Z.testbit b 3; Z.testbit b 2; Z.testbit b 1; Z.testbit b 0].

(** A byte buffer read as a dense bit sequence: bit [8 * i + j] is bit
    [7 - j] of byte [i]. *)
Definition bit_stream (data : list Z) : list bool := flat_map byte_bits data.

(** The unsigned integer a bit sequence denotes, first bit most significant. *)
Definition bits_value (bits : list bool) : Z :=
  fold_left (fun acc (b : bool) => 2 * acc + Z.b2z b) bits 0.

(** The [len] bits of the buffer from bit position [index] on. *)
Definition bit_range (data : list Z) (index len : Z) : list bool :=
  take (Z.to_nat len) (drop (Z.to_nat index) (bit_stream data)).

(** The bits [encode_image] appends for one sample: the arguments of its
    [add_bits] calls, in order. *)
Definition sample_code (current_value val : Z) : list bool :=
  let delta := val - current_value in
  if (delta <? MIN_DIFF) || (delta >? MAX_DIFF) then
    [false] ++ encode_bits val 8
  else
    [true] ++ [delta <? 0] ++ encode_bits (delta mod DIFF_MOD) DIFF_VAL.

(** The substream of one channel, the predictor starting at [current_value]. *)
Fixpoint channel_code (current_value : Z) (channel : list Z) : list bool :=
  match channel with
  | [] => []
  | val :: rest => sample_code current_value val ++ channel_code val rest
  end.

(** The three channels [encode_image] splits the pixels into. *)
Definition red_of (pixels : PixelList) : list Z :=
  map (fun pixel : Pixel => fst (fst pixel)) pixels.
Definition green_of (pixels : PixelList) : list Z :=
  map (fun pixel : Pixel => snd (fst pixel)) pixels.
Definition blue_of (pixels : PixelList) : list Z :=
  map (fun pixel : Pixel => snd pixel) pixels.

(** The bit sequence [encode_image] produces before padding. *)
Definition frame_bits (width height : Z) (pixels : PixelList) : list bool :=
  encode_bits width 16 ++ encode_bits height 16
  ++ channel_code 0 (red_of pixels)
  ++ channel_code 0 (green_of pixels)
  ++ channel_code 0 (blue_of pixels).

(** The bits a [BitArray] has been given since it was created: those packed
    into [data] followed by those pending in [buffer]. *)
Definition written (self : BitArray.t) : list bool :=
  bit_stream (BitArray.data self)
  ++ take (Z.to_nat (BitArray.index self)) (BitArray.buffer self).

(** The shape every [BitArray] built by [__init__] and [add_bits] has. *)
Definition wf_bitarray (self : BitArray.t) : Prop :=
  is_bytes (BitArray.data self) = true
  /\ 0 <= BitArray.index self < 8
  /\ exists pending,
       BitArray.buffer self = pending ++ repeat false (8 - length pending)
       /\ Z.of_nat (length pending) = BitArray.index self.

(** ** [is_same_image] *)

(** [pixel_a != pixel_b] on tuples of three integers, negated. *)
Definition pixel_eqb (a b : Pixel) : bool :=
  let '(ar, ag, ab) := a in
  let '(br, bg, bb) := b in
  (ar =? br) && (ag =? bg) && (ab =? bb).

(** [for i in range(len(pixels_a)): if pixels_a[i] != pixels_b[i]: return False]
    followed by [return True]; [indices] are the values of [i] still to come. *)
Fixpoint is_same_image_loop (pixels_a pixels_b : PixelList) (indices : list nat)
  : result bool :=
  match indices with
  | [] => Ok true
  | i :: rest =>
      let* a := getitem pixels_a (Z.of_nat i) in
      let* b := getitem pixels_b (Z.of_nat i) in
      if negb (pixel_eqb a b) then Ok false
      else is_same_image_loop pixels_a pixels_b rest
  end.

Definition is_same_image (pixels_a pixels_b : PixelList) : result bool :=
  if negb (Z.of_nat (length pixels_a) =? Z.of_nat (length pixels_b)) then Ok false
  else is_same_image_loop pixels_a pixels_b (seq 0 (length pixels_a)).

(** ** More specification vocabulary *)

(** The progress variables after [index] samples with a positive step: [step]
    is the number of multiples of [step_size] reached, and the lines printed
    are 1, 2, ..., [step]. *)
Definition progress_at (step_size index : Z) : progress :=
  mk_progress (index / step_size) index
    (map Z.of_nat (seq 1 (Z.to_nat (index / step_size)))).

(** What the decoder makes of the code of [val]: exact on the delta path,
    the low 8 bits on the literal path. *)
Definition decoded_sample (current_value val : Z) : Z :=
  let delta := val - current_value in
  if (delta <? MIN_DIFF) || (delta >? MAX_DIFF) then val mod 256 else val.

(** A 34 x 1 image used to instantiate the theorems on images, and the
    buffer [encode_image] returns for it. *)
Definition example_pixels : PixelList :=
  map (fun i => (i, 255 - 7 * i, (i * i) mod 256)) (map Z.of_nat (seq 0 34)).

Definition example_bytes : list Z :=
  Eval vm_compute in
    match encode_image 34 1 example_pixels with
    | Ok bytes => bytes
    | Raise _ => []
    end.

(** * Properties *)

(** ** [read_bits] never fails on a non-negative length *)

Lemma shiftl_1_ones (n : Z) : Z.shiftl 1 n - 1 = Z.ones n.
Proof. unfold Z.ones. lia. Qed.

(** What [read_bits] computes, without the monad. *)
Lemma read_bits_eq (self : BitArray.t) (index len : Z) :
  0 <= len ->
  BitArray.read_bits self index len =
  Ok (Z.shiftr (int_from_bytes (py_slice (BitArray.data self)
                                  (index / 8) ((index + len + 7) / 8)))
               ((8 - (index + len)) mod 8) mod 2 ^ len).
Proof.
  intros Hlen. unfold BitArray.read_bits, py_lshift.
  destruct (Z.ltb_spec len 0) as [?|_]; [lia|]. cbn [bind].
  rewrite shiftl_1_ones, Z.land_ones by lia. reflexivity.
Qed.

Lemma read_bits_range (self : BitArray.t) (index len v : Z) :
  0 <= len ->
  BitArray.read_bits self index len = Ok v ->
  0 <= v < 2 ^ len.
Proof.
  intros Hlen. rewrite read_bits_eq by lia. intros [= <-].
  apply Z.mod_pos_bound. apply Z.pow_pos_nonneg; lia.
Qed.

Lemma read_bits_ok (self : BitArray.t) (index len : Z) :
  0 <= len ->
  exists v, BitArray.read_bits self index len = Ok v /\ 0 <= v < 2 ^ len.
Proof.
  intros Hlen. eexists. split; [apply read_bits_eq; lia|].
  apply Z.mod_pos_bound. apply Z.pow_pos_nonneg; lia.
Qed.

Lemma py_slice_past_end {A : Type} (l : list A) (start stop : Z) :
  Z.of_nat (length l) <= start -> py_slice l start stop = [].
Proof.
  intros H. unfold py_slice, slice_bound.
  destruct (Z.ltb_spec start 0) as [?|_]; [lia|].
  rewrite (Z.min_r start) by lia. rewrite Nat2Z.id.
  rewrite drop_all. apply take_nil.
Qed.

(** When the slice runs to the end of the buffer, it is the rest of the
    buffer from [start]. *)
Lemma py_slice_to_end {A : Type} (l : list A) (start stop : Z) :
  0 <= start -> Z.of_nat (length l) <= stop ->
  py_slice l start stop = drop (Z.to_nat start) l.
Proof.
  intros Hs He. unfold py_slice, slice_bound.
  destruct (Z.ltb_spec start 0) as [?|_]; [lia|].
  destruct (Z.ltb_spec stop 0) as [?|_]; [lia|].
  rewrite (Z.min_r stop) by lia.
  destruct (Z.le_gt_cases start (Z.of_nat (length l))) as [Hle|Hgt].
  - rewrite Z.min_l by lia. apply take_ge. rewrite length_drop. lia.
  - rewrite Z.min_r by lia. rewrite Nat2Z.id, drop_all, take_nil.
    symmetry. apply drop_ge. lia.
Qed.

(** ** Progress reporting *)

Lemma report_progress_zero (p : progress) :
  report_progress 0 p = Raise ZeroDivisionError.
Proof. reflexivity. Qed.

Lemma report_progress_ok (step_size : Z) (p : progress) :
  step_size <> 0 -> exists p', report_progress step_size p = Ok p'.
Proof.
  intros H. unfold report_progress, py_mod.
  destruct (Z.eqb_spec step_size 0) as [?|_]; [contradiction|].
  cbn [bind]. destruct (_ =? 0); eauto.
Qed.

(** ** [decode_image] on any buffer *)

Lemma get_next_bits_ok (bits : BitArray.t) (index n : Z) :
  0 <= n ->
  exists v, 0 <= v < 2 ^ n /\ get_next_bits bits index n = Ok (v, index + n).
Proof.
  intros Hn. unfold get_next_bits.
  destruct (read_bits_ok bits index n Hn) as (v & -> & Hv). eauto.
Qed.

Lemma decode_sample_ok (bits : BitArray.t) (index value : Z) :
  exists index' value', decode_sample bits index value = Ok (index', value').
Proof.
  unfold decode_sample.
  destruct (get_next_bits_ok bits index 1) as (flag & _ & ->); [lia|].
  cbn [bind]. destruct (py_bool flag).
  - destruct (get_next_bits_ok bits (index + 1) 1) as (sign & _ & ->); [lia|].
    cbn [bind].
    destruct (get_next_bits_ok bits (index + 1 + 1) DIFF_VAL) as (d & _ & ->);
      [unfold DIFF_VAL, BITS_FOR_DIFF; lia|].
    cbn [bind]. eauto.
  - destruct (get_next_bits_ok bits (index + 1) 8) as (v & _ & ->); [lia|].
    cbn [bind]. eauto.
Qed.

Lemma decode_channel_loop_zero (bits : BitArray.t) (n : nat) (index : Z)
  (p : progress) (value : Z) (channel : list Z) :
  (0 < n)%nat ->
  decode_channel_loop bits 0 n index p value channel = Raise ZeroDivisionError.
Proof.
  destruct n as [|n]; [lia|]. intros _. cbn [decode_channel_loop].
  destruct (decode_sample_ok bits index value) as (i' & v' & ->).
  cbn [bind]. rewrite report_progress_zero. reflexivity.
Qed.

Lemma decode_channel_loop_ok (bits : BitArray.t) (step_size : Z) (n : nat) :
  step_size <> 0 ->
  forall (index : Z) (p : progress) (value : Z) (channel : list Z),
  exists index' p' channel',
    decode_channel_loop bits step_size n index p value channel
    = Ok (index', p', channel') /\
    length channel' = (length channel + n)%nat.
Proof.
  intros Hs. induction n as [|n IH]; intros index p value channel.
  - exists index, p, channel. split; [reflexivity|lia].
  - cbn [decode_channel_loop].
    destruct (decode_sample_ok bits index value) as (i1 & v1 & ->). cbn [bind].
    destruct (report_progress_ok step_size p Hs) as (p1 & ->). cbn [bind].
    destruct (IH i1 p1 v1 (channel ++ [v1])) as (i2 & p2 & ch & -> & Hlen).
    exists i2, p2, ch. split; [reflexivity|].
    rewrite Hlen, length_app. cbn. lia.
Qed.

Lemma length_zip3 (red green blue : list Z) (n : nat) :
  length red = n -> length green = n -> length blue = n ->
  length (zip3 red green blue) = n.
Proof.
  revert green blue n. induction red as [|r red IH]; intros [|g green] [|b blue] n;
    cbn; intros; subst; try discriminate; try reflexivity.
  f_equal. apply IH; congruence.
Qed.

(** Whatever the buffer holds, [decode_image] returns an image of the
    dimensions read from the header as soon as the progress step is not zero. *)
Lemma decode_image_returns (data : list Z) (width height : Z) :
  BitArray.read_bits (BitArray.init data) 0 16 = Ok width ->
  BitArray.read_bits (BitArray.init data) 16 16 = Ok height ->
  3 * width * height / 100 <> 0 ->
  exists pixels,
    decode_image data = Ok (width, height, pixels) /\
    Z.of_nat (length pixels) = width * height.
Proof.
  intros Hw Hh Hs. unfold decode_image, decode_image_io.
  rewrite Hw, Hh. cbn [bind]. unfold decode_channel.
  apply read_bits_range in Hw; [|lia]. apply read_bits_range in Hh; [|lia].
  set (bits := BitArray.init data). set (n := Z.to_nat (width * height)).
  destruct (decode_channel_loop_ok bits _ n Hs 32 (mk_progress 0 0 []) 0 [])
    as (i1 & p1 & red & -> & Hr). cbn [bind].
  destruct (decode_channel_loop_ok bits _ n Hs i1 p1 0 [])
    as (i2 & p2 & green & -> & Hg). cbn [bind].
  destruct (decode_channel_loop_ok bits _ n Hs i2 p2 0 [])
    as (i3 & p3 & blue & -> & Hb). cbn [bind].
  eexists. split; [reflexivity|].
  rewrite (length_zip3 red green blue n) by assumption.
  subst n. rewrite Z2Nat.id; [reflexivity|]. apply Z.mul_nonneg_nonneg; lia.
Qed.

(** With a zero progress step and at least one pixel declared, the first
    iteration of [decode_image] divides by zero. *)
Lemma decode_image_zero_step (data : list Z) (width height : Z) :
  BitArray.read_bits (BitArray.init data) 0 16 = Ok width ->
  BitArray.read_bits (BitArray.init data) 16 16 = Ok height ->
  3 * width * height / 100 = 0 ->
  0 < width * height ->
  decode_image data = Raise ZeroDivisionError.
Proof.
  intros Hw Hh Hs Hn. unfold decode_image, decode_image_io.
  rewrite Hw, Hh. cbn [bind]. unfold decode_channel. rewrite Hs.
  rewrite decode_channel_loop_zero by lia. reflexivity.
Qed.

(** ** The writer: [add_bits] and [to_bytes] *)

Lemma pack_buffer_spec (b0 b1 b2 b3 b4 b5 b6 b7 : bool) :
  exists v, BitArray.pack_buffer [b0; b1; b2; b3; b4; b5; b6; b7] = Ok v
            /\ py_bytes1 v = Ok [v]
            /\ byte_bits v = [b0; b1; b2; b3; b4; b5; b6; b7].
Proof.
  destruct b0, b1, b2, b3, b4, b5, b6, b7;
    eexists; (split; [reflexivity|split; reflexivity]).
Qed.

Lemma is_bytes_app (l1 l2 : list Z) :
  is_bytes (l1 ++ l2) = is_bytes l1 && is_bytes l2.
Proof. apply forallb_app. Qed.

Lemma py_bytes1_is_bytes (v : Z) (bs : list Z) :
  py_bytes1 v = Ok bs -> is_bytes bs = true /\ bs = [v].
Proof.
  unfold py_bytes1. destruct ((0 <=? v) && (v <? 256)) eqn:E; [|discriminate].
  intros [= <-]. cbn. rewrite E. auto.
Qed.

Lemma bit_stream_app (l1 l2 : list Z) :
  bit_stream (l1 ++ l2) = bit_stream l1 ++ bit_stream l2.
Proof. apply flat_map_app. Qed.

Lemma wf_init (data : list Z) :
  is_bytes data = true -> wf_bitarray (BitArray.init data).
Proof.
  intros H. split; [exact H|]. split; [cbn; lia|].
  exists []. split; reflexivity.
Qed.

Lemma written_init (data : list Z) :
  written (BitArray.init data) = bit_stream data.
Proof. unfold written. cbn. apply app_nil_r. Qed.

(** One more bit: either it joins the pending bits, or it completes a byte,
    which is packed and appended to [data]. *)
Lemma add_bit_spec (self : BitArray.t) (bit : bool) :
  wf_bitarray self ->
  exists self',
    BitArray.add_bit self bit = Ok self'
    /\ wf_bitarray self'
    /\ written self' = written self ++ [bit].
Proof.
  destruct self as [data buffer index].
  intros (Hdata & Hidx & pending & Hbuf & Hlen). cbn [BitArray.data BitArray.buffer BitArray.index] in Hdata, Hidx, Hbuf, Hlen.
  subst index buffer.
  destruct pending as [|b0 [|b1 [|b2 [|b3 [|b4 [|b5 [|b6 [|b7 pending]]]]]]]];
    cbn in Hidx; try lia.
  1-7: match goal with |- context [BitArray.mk _ (?l ++ _) _] =>
    exists (BitArray.mk data
              ((l ++ [bit]) ++ repeat false (8 - length (l ++ [bit])))
              (Z.of_nat (length (l ++ [bit]))));
    split; [reflexivity|]; split;
    [ split; [exact Hdata|]; split; [cbn; lia|];
      exists (l ++ [bit]); split; reflexivity
    | unfold written; cbn; rewrite <- app_assoc; reflexivity ]
    end.
  destruct (pack_buffer_spec b0 b1 b2 b3 b4 b5 b6 bit) as (v & Hv & Hb & Hbits).
  exists (BitArray.mk (data ++ [v]) (repeat false 8) 0).
  split.
  - assert (E : setitem [b0; b1; b2; b3; b4; b5; b6; false] (Z.of_nat 7) bit
                = Ok [b0; b1; b2; b3; b4; b5; b6; bit]) by reflexivity.
    unfold BitArray.add_bit.
    cbn [BitArray.data BitArray.buffer BitArray.index length app repeat Nat.sub].
    rewrite E. cbn [bind BitArray.data BitArray.buffer BitArray.index].
    change (Z.of_nat 7 + 1 =? 8) with true. cbv iota.
    unfold BitArray.flush. cbn [BitArray.data BitArray.buffer BitArray.index].
    rewrite Hv. cbn [bind]. rewrite Hb. reflexivity.
  - split.
    + split.
      * cbn [BitArray.data]. rewrite is_bytes_app, Hdata.
        apply py_bytes1_is_bytes in Hb. apply Hb.
      * split; [cbn; lia|]. exists []. split; reflexivity.
    + unfold written. cbn -[bit_stream byte_bits].
      rewrite bit_stream_app, app_nil_r. cbn -[byte_bits].
      rewrite app_nil_r, Hbits, <- app_assoc. reflexivity.
Qed.

Lemma add_bits_spec (bits : list bool) :
  forall self : BitArray.t,
  wf_bitarray self ->
  exists self',
    BitArray.add_bits self bits = Ok self'
    /\ wf_bitarray self'
    /\ written self' = written self ++ bits.
Proof.
  induction bits as [|bit rest IH]; intros self Hwf.
  - exists self. rewrite app_nil_r. auto.
  - destruct (add_bit_spec self bit Hwf) as (self1 & E1 & Hwf1 & W1).
    destruct (IH self1 Hwf1) as (self2 & E2 & Hwf2 & W2).
    exists self2. cbn [BitArray.add_bits]. rewrite E1. cbn [bind].
    split; [exact E2|]. split; [exact Hwf2|].
    rewrite W2, W1, <- app_assoc. reflexivity.
Qed.

(** [to_bytes] completes the pending bits with zeros to a whole byte. *)
Lemma to_bytes_spec (self : BitArray.t) :
  wf_bitarray self ->
  exists self' bytes,
    BitArray.to_bytes self = Ok (self', bytes)
    /\ BitArray.data self' = bytes
    /\ BitArray.index self' = 0
    /\ is_bytes bytes = true
    /\ bit_stream bytes
       = written self ++ repeat false (Z.to_nat ((8 - BitArray.index self) mod 8)).
Proof.
  destruct self as [data buffer index].
  intros (Hdata & Hidx & pending & Hbuf & Hlen). cbn [BitArray.data BitArray.buffer BitArray.index] in Hdata, Hidx, Hbuf, Hlen.
  subst index buffer.
  destruct pending as [|b0 [|b1 [|b2 [|b3 [|b4 [|b5 [|b6 [|b7 pending]]]]]]]];
    cbn in Hidx; try lia.
  { eexists _, _. split; [reflexivity|]. unfold written. cbn.
    rewrite !app_nil_r. auto. }
  all: match goal with |- context [BitArray.mk _ (?l ++ _) _] =>
      let l' := eval cbn in (l ++ repeat false (8 - length l)) in
      match l' with
      | [?c0; ?c1; ?c2; ?c3; ?c4; ?c5; ?c6; ?c7] =>
          destruct (pack_buffer_spec c0 c1 c2 c3 c4 c5 c6 c7) as (v & Hv & Hb & Hbits)
      end end.
  all: exists (BitArray.mk (data ++ [v]) (repeat false 8) 0), (data ++ [v]).
  all: split;
    [ unfold BitArray.to_bytes, BitArray.flush;
      cbn -[BitArray.pack_buffer py_bytes1];
      rewrite Hv; cbn [bind]; rewrite Hb; reflexivity |].
  all: split; [reflexivity|]; split; [reflexivity|]; split;
    [ rewrite is_bytes_app, Hdata; apply py_bytes1_is_bytes in Hb; apply Hb |].
  all: unfold written; cbn -[bit_stream byte_bits];
    rewrite bit_stream_app; cbn -[byte_bits];
    rewrite app_nil_r, Hbits, <- app_assoc; reflexivity.
Qed.

(** ** The encoder loops *)

Lemma encode_sample_spec (b : BitArray.t) (current_value val : Z) :
  wf_bitarray b ->
  exists b',
    encode_sample b current_value val = Ok (b', val)
    /\ wf_bitarray b'
    /\ written b' = written b ++ sample_code current_value val.
Proof.
  intros Hwf. unfold encode_sample, sample_code.
  destruct ((val - current_value <? MIN_DIFF) || (val - current_value >? MAX_DIFF)).
  - destruct (add_bits_spec [false] b Hwf) as (b1 & -> & Hwf1 & W1). cbn [bind].
    destruct (add_bits_spec (encode_bits val 8) b1 Hwf1) as (b2 & -> & Hwf2 & W2).
    cbn [bind]. exists b2. split; [reflexivity|]. split; [exact Hwf2|].
    rewrite W2, W1, <- app_assoc. reflexivity.
  - destruct (add_bits_spec [true] b Hwf) as (b1 & -> & Hwf1 & W1). cbn [bind].
    destruct (add_bits_spec [val - current_value <? 0] b1 Hwf1)
      as (b2 & -> & Hwf2 & W2). cbn [bind].
    destruct (add_bits_spec
                (encode_bits ((val - current_value) mod DIFF_MOD) DIFF_VAL) b2 Hwf2)
      as (b3 & -> & Hwf3 & W3). cbn [bind].
    exists b3. split; [reflexivity|]. split; [exact Hwf3|].
    rewrite W3, W2, W1, <- !app_assoc. reflexivity.
Qed.

Lemma encode_channel_loop_zero (b : BitArray.t) (p : progress)
  (current_value : Z) (channel : list Z) :
  wf_bitarray b -> channel <> [] ->
  encode_channel_loop 0 b p current_value channel = Raise ZeroDivisionError.
Proof.
  intros Hwf Hne. destruct channel as [|val rest]; [contradiction|].
  cbn [encode_channel_loop].
  destruct (encode_sample_spec b current_value val Hwf) as (b1 & -> & _).
  cbn [bind]. rewrite report_progress_zero. reflexivity.
Qed.

Lemma encode_channel_loop_spec (step_size : Z) (channel : list Z) :
  step_size <> 0 \/ channel = [] ->
  forall (b : BitArray.t) (p : progress) (current_value : Z),
  wf_bitarray b ->
  exists b' p',
    encode_channel_loop step_size b p current_value channel = Ok (b', p')
    /\ wf_bitarray b'
    /\ written b' = written b ++ channel_code current_value channel.
Proof.
  induction channel as [|val rest IH]; intros Hs b p current_value Hwf.
  - exists b, p. cbn. rewrite app_nil_r. auto.
  - destruct Hs as [Hs|Hs]; [|discriminate].
    cbn [encode_channel_loop channel_code].
    destruct (encode_sample_spec b current_value val Hwf) as (b1 & -> & Hwf1 & W1).
    cbn [bind].
    destruct (report_progress_ok step_size p Hs) as (p1 & ->). cbn [bind].
    destruct (IH (or_introl Hs) b1 p1 val Hwf1) as (b2 & p2 & -> & Hwf2 & W2).
    exists b2, p2. split; [reflexivity|]. split; [exact Hwf2|].
    rewrite W2, W1, <- app_assoc. reflexivity.
Qed.

(** Unless the progress step is zero while there are pixels, [encode_image]
    returns a byte buffer whose bits are the header, the three channel
    substreams and fewer than 8 zero bits. *)
Lemma encode_image_spec (width height : Z) (pixels : PixelList) :
  3 * width * height / 100 <> 0 \/ pixels = [] ->
  exists bytes (pad : nat),
    encode_image width height pixels = Ok bytes
    /\ is_bytes bytes = true
    /\ (pad < 8)%nat
    /\ bit_stream bytes = frame_bits width height pixels ++ repeat false pad.
Proof.
  intros Hs. unfold encode_image, encode_image_io.
  destruct (add_bits_spec (encode_bits width 16) (BitArray.init []))
    as (b1 & -> & Hwf1 & W1); [apply wf_init; reflexivity|]. cbn [bind].
  destruct (add_bits_spec (encode_bits height 16) b1 Hwf1) as (b2 & -> & Hwf2 & W2).
  cbn [bind encode_channels].
  fold (red_of pixels) (green_of pixels) (blue_of pixels).
  assert (Hc : forall f : Pixel -> Z,
             3 * width * height / 100 <> 0 \/ map f pixels = []).
  { intros f. destruct Hs as [Hs| ->]; [left; exact Hs|right; reflexivity]. }
  destruct (encode_channel_loop_spec _ (red_of pixels) (Hc _) b2
              (mk_progress 0 0 []) 0 Hwf2) as (b3 & p3 & -> & Hwf3 & W3).
  cbn [bind].
  destruct (encode_channel_loop_spec _ (green_of pixels) (Hc _) b3 p3 0 Hwf3)
    as (b4 & p4 & -> & Hwf4 & W4). cbn [bind].
  destruct (encode_channel_loop_spec _ (blue_of pixels) (Hc _) b4 p4 0 Hwf4)
    as (b5 & p5 & -> & Hwf5 & W5). cbn [bind].
  destruct (to_bytes_spec b5 Hwf5) as (b6 & bytes & -> & _ & _ & Hbytes & Hstream).
  cbn [bind].
  exists bytes, (Z.to_nat ((8 - BitArray.index b5) mod 8)).
  split; [reflexivity|]. split; [exact Hbytes|]. split.
  - pose proof (Z.mod_pos_bound (8 - BitArray.index b5) 8). lia.
  - rewrite Hstream, W5, W4, W3, W2, W1, written_init. cbn [bit_stream flat_map app].
    unfold frame_bits. rewrite <- !app_assoc. reflexivity.
Qed.

(** With a zero progress step and at least one pixel, the first iteration of
    [encode_image] divides by zero. *)
Lemma encode_image_zero_step (width height : Z) (pixels : PixelList) :
  3 * width * height / 100 = 0 -> pixels <> [] ->
  encode_image width height pixels = Raise ZeroDivisionError.
Proof.
  intros Hs Hne. unfold encode_image, encode_image_io.
  destruct (add_bits_spec (encode_bits width 16) (BitArray.init []))
    as (b1 & -> & Hwf1 & W1); [apply wf_init; reflexivity|]. cbn [bind].
  destruct (add_bits_spec (encode_bits height 16) b1 Hwf1) as (b2 & -> & Hwf2 & W2).
  cbn [bind encode_channels]. rewrite Hs.
  rewrite encode_channel_loop_zero; [reflexivity|exact Hwf2|].
  destruct pixels; [contradiction|discriminate].
Qed.

(** ** Bit sequences and their values *)

Lemma length_byte_bits (b : Z) : length (byte_bits b) = 8%nat.
Proof. reflexivity. Qed.

Lemma length_bit_stream (data : list Z) :
  length (bit_stream data) = (8 * length data)%nat.
Proof.
  induction data as [|b data IH]; [reflexivity|].
  change (bit_stream (b :: data)) with (byte_bits b ++ bit_stream data).
  rewrite length_app, IH, length_byte_bits. cbn [length]. lia.
Qed.

Lemma bits_value_fold (bits : list bool) (acc : Z) :
  fold_left (fun a (b : bool) => 2 * a + Z.b2z b) bits acc
  = acc * 2 ^ Z.of_nat (length bits) + bits_value bits.
Proof.
  unfold bits_value. revert acc.
  induction bits as [|b bits IH]; intros acc.
  - cbn. lia.
  - cbn [fold_left length]. rewrite IH, (IH (2 * 0 + Z.b2z b)).
    rewrite Nat2Z.inj_succ, Z.pow_succ_r by lia. lia.
Qed.

Lemma bits_value_app (l1 l2 : list bool) :
  bits_value (l1 ++ l2)
  = bits_value l1 * 2 ^ Z.of_nat (length l2) + bits_value l2.
Proof.
  unfold bits_value at 1. rewrite fold_left_app.
  fold (bits_value l1). apply bits_value_fold.
Qed.

Lemma bits_value_range (bits : list bool) :
  0 <= bits_value bits < 2 ^ Z.of_nat (length bits).
Proof.
  induction bits as [|b bits IH] using rev_ind; [cbn; lia|].
  rewrite bits_value_app, length_app. cbn [length].
  rewrite Nat2Z.inj_add, Z.pow_add_r by lia.
  change (bits_value [b]) with (2 * 0 + Z.b2z b).
  change (2 ^ Z.of_nat 1) with 2. destruct b; cbn [Z.b2z]; lia.
Qed.

Lemma bits_value_byte_bits (b : Z) :
  0 <= b < 256 -> bits_value (byte_bits b) = b.
Proof.
  intros Hb.
  assert (Hall : forallb (fun b => bits_value (byte_bits b) =? b)
                   (map Z.of_nat (seq 0 256)) = true) by (vm_compute; reflexivity).
  rewrite forallb_forall in Hall. apply Z.eqb_eq, Hall.
  apply in_map_iff. exists (Z.to_nat b). split; [lia|]. apply in_seq. lia.
Qed.

Lemma is_bytes_cons (b : Z) (data : list Z) :
  is_bytes (b :: data) = true <-> 0 <= b < 256 /\ is_bytes data = true.
Proof.
  unfold is_bytes. cbn [forallb]. rewrite !andb_true_iff.
  rewrite Z.leb_le, Z.ltb_lt. tauto.
Qed.

Lemma int_from_bytes_fold (bs : list Z) (acc : Z) :
  is_bytes bs = true ->
  fold_left (fun a b => a * 256 + b) bs acc
  = acc * 2 ^ Z.of_nat (length (bit_stream bs)) + bits_value (bit_stream bs).
Proof.
  revert acc. induction bs as [|b bs IH]; intros acc Hbs.
  - cbn. lia.
  - apply is_bytes_cons in Hbs as [Hb Hbs].
    cbn [fold_left]. rewrite IH by exact Hbs.
    change (bit_stream (b :: bs)) with (byte_bits b ++ bit_stream bs).
    rewrite bits_value_app, length_app, length_byte_bits.
    rewrite bits_value_byte_bits by exact Hb.
    rewrite Nat2Z.inj_add, Z.pow_add_r by lia.
    change (2 ^ Z.of_nat 8) with 256. lia.
Qed.

(** [int.from_bytes(bs, 'big')] is the value of the bits of [bs]. *)
Lemma int_from_bytes_bits (bs : list Z) :
  is_bytes bs = true -> int_from_bytes bs = bits_value (bit_stream bs).
Proof.
  intros H. unfold int_from_bytes. rewrite int_from_bytes_fold by exact H. lia.
Qed.

Lemma bit_stream_drop (k : nat) (data : list Z) :
  bit_stream (drop k data) = drop (8 * k) (bit_stream data).
Proof.
  revert data. induction k as [|k IH]; intros data; [reflexivity|].
  destruct data as [|b data]; [reflexivity|].
  replace (8 * S k)%nat with (8 + 8 * k)%nat by lia.
  cbn [drop]. rewrite IH. reflexivity.
Qed.

Lemma bit_stream_take (k : nat) (data : list Z) :
  bit_stream (take k data) = take (8 * k) (bit_stream data).
Proof.
  revert data. induction k as [|k IH]; intros data; [reflexivity|].
  destruct data as [|b data]; [reflexivity|].
  replace (8 * S k)%nat with (8 + 8 * k)%nat by lia.
  cbn [take]. change (bit_stream (b :: take k data))
    with (byte_bits b ++ bit_stream (take k data)).
  rewrite IH. reflexivity.
Qed.

Lemma is_bytes_take (k : nat) (data : list Z) :
  is_bytes data = true -> is_bytes (take k data) = true.
Proof.
  revert data. induction k as [|k IH]; intros [|b data] H; try reflexivity.
  apply is_bytes_cons in H as [Hb H]. cbn [take].
  apply is_bytes_cons. auto.
Qed.

Lemma is_bytes_drop (k : nat) (data : list Z) :
  is_bytes data = true -> is_bytes (drop k data) = true.
Proof.
  revert data. induction k as [|k IH]; intros [|b data] H; try reflexivity;
    try exact H.
  apply is_bytes_cons in H as [Hb H]. cbn [drop]. auto.
Qed.

Lemma take_add_app {A : Type} (n m : nat) (l : list A) :
  take (n + m) l = take n l ++ take m (drop n l).
Proof.
  revert l. induction n as [|n IH]; intros l; [reflexivity|].
  destruct l as [|x l]; [cbn; rewrite take_nil; reflexivity|].
  cbn. rewrite IH. reflexivity.
Qed.

Lemma py_slice_inside {A : Type} (l : list A) (start stop : Z) :
  0 <= start <= stop -> stop <= Z.of_nat (length l) ->
  py_slice l start stop = take (Z.to_nat (stop - start)) (drop (Z.to_nat start) l).
Proof.
  intros Hs He. unfold py_slice, slice_bound.
  destruct (Z.ltb_spec start 0) as [?|_]; [lia|].
  destruct (Z.ltb_spec stop 0) as [?|_]; [lia|].
  rewrite !Z.min_l by lia. reflexivity.
Qed.

(** ** The reader on in-bounds ranges *)

Lemma length_bit_range (data : list Z) (index len : Z) :
  0 <= index -> 0 <= len -> index + len <= 8 * Z.of_nat (length data) ->
  length (bit_range data index len) = Z.to_nat len.
Proof.
  intros Hi Hl Hb. unfold bit_range.
  rewrite length_take, length_drop, length_bit_stream. lia.
Qed.

(** In bounds, [read_bits] returns the value of the bits of the range. *)
Lemma read_bits_in_bounds (data : list Z) (index len : Z) :
  is_bytes data = true ->
  0 <= index -> 0 <= len -> index + len <= 8 * Z.of_nat (length data) ->
  BitArray.read_bits (BitArray.init data) index len
  = Ok (bits_value (bit_range data index len)).
Proof.
  intros Hdata Hi Hl Hb. rewrite read_bits_eq by lia. f_equal.
  cbn [BitArray.data BitArray.init].
  set (s := index / 8). set (e := (index + len + 7) / 8).
  pose proof (Z.div_mod index 8 ltac:(lia)) as Hs.
  pose proof (Z.mod_pos_bound index 8 ltac:(lia)) as Hs'.
  pose proof (Z.div_mod (index + len + 7) 8 ltac:(lia)) as He.
  pose proof (Z.mod_pos_bound (index + len + 7) 8 ltac:(lia)) as He'.
  fold s in Hs. fold e in He.
  assert (Hshift : (8 - (index + len)) mod 8 = 8 * e - (index + len)).
  { symmetry. apply Z.mod_unique_pos with (q := 1 - e); lia. }
  rewrite Hshift. set (shift := 8 * e - (index + len)).
  assert (Hsh : 0 <= shift < 8) by (unfold shift; lia).
  rewrite py_slice_inside by lia.
  rewrite int_from_bytes_bits by (apply is_bytes_take, is_bytes_drop, Hdata).
  rewrite bit_stream_take, bit_stream_drop.
  set (stream := bit_stream data).
  assert (Hlen : length stream = (8 * length data)%nat) by apply length_bit_stream.
  replace (8 * Z.to_nat (e - s))%nat
    with (Z.to_nat (index - 8 * s) + (Z.to_nat len + Z.to_nat shift))%nat
    by (unfold shift; lia).
  rewrite !take_add_app, !drop_drop.
  replace (8 * Z.to_nat s + Z.to_nat (index - 8 * s))%nat
    with (Z.to_nat index) by lia.
  change (bit_range data index len)
    with (take (Z.to_nat len) (drop (Z.to_nat index) stream)).
  set (A := take _ (drop (8 * Z.to_nat s) stream)).
  set (B := take (Z.to_nat len) (drop (Z.to_nat index) stream)).
  set (C := take (Z.to_nat shift) _).
  assert (HB : length B = Z.to_nat len)
    by (apply (length_bit_range data index len); lia).
  assert (HC : length C = Z.to_nat shift).
  { unfold C. rewrite length_take, length_drop, Hlen. unfold shift. lia. }
  rewrite !bits_value_app, HC, Z2Nat.id by lia.
  pose proof (bits_value_range C) as RC. rewrite HC, Z2Nat.id in RC by lia.
  pose proof (bits_value_range B) as RB. rewrite HB, Z2Nat.id in RB by lia.
  rewrite Z.shiftr_div_pow2 by lia.
  rewrite length_app, HB, HC.
  replace (Z.of_nat (Z.to_nat len + Z.to_nat shift)) with (len + shift) by lia.
  rewrite Z.pow_add_r by lia.
  replace (bits_value A * (2 ^ len * 2 ^ shift)
           + (bits_value B * 2 ^ shift + bits_value C))
    with ((bits_value A * 2 ^ len + bits_value B) * 2 ^ shift + bits_value C)
    by ring.
  assert (0 < 2 ^ shift) by (apply Z.pow_pos_nonneg; lia).
  assert (0 < 2 ^ len) by (apply Z.pow_pos_nonneg; lia).
  rewrite Z.div_add_l by lia. rewrite (Z.div_small (bits_value C)) by lia.
  rewrite Z.add_0_r, Z.add_comm, Z.mod_add by lia.
  apply Z.mod_small. lia.
Qed.

(** ** [encode_bits] *)

Lemma encode_bits_loop_acc (n : nat) (value : Z) (acc : list bool) :
  encode_bits_loop n value acc = acc ++ encode_bits_loop n value [].
Proof.
  revert value acc. induction n as [|n IH]; intros value acc.
  - cbn. rewrite app_nil_r. reflexivity.
  - cbn [encode_bits_loop]. rewrite IH, (IH _ ([] ++ _)).
    rewrite <- app_assoc. reflexivity.
Qed.

Lemma py_bool_land_1 (value : Z) : py_bool (Z.land value 1) = Z.odd value.
Proof.
  unfold py_bool. change 1 with (Z.ones 1). rewrite Z.land_ones by lia.
  change (2 ^ 1) with 2. rewrite <- Zeven_mod. apply Z.negb_even.
Qed.

(** One more bit in front: the low bit goes last. *)
Lemma encode_bits_succ (value : Z) (n : nat) :
  encode_bits value (Z.of_nat (S n))
  = encode_bits (Z.shiftr value 1) (Z.of_nat n) ++ [Z.odd value].
Proof.
  unfold encode_bits. rewrite !Nat2Z.id. cbn [encode_bits_loop].
  rewrite encode_bits_loop_acc, rev_app_distr, py_bool_land_1. reflexivity.
Qed.

Lemma length_encode_bits (value len : Z) :
  length (encode_bits value len) = Z.to_nat len.
Proof.
  unfold encode_bits. rewrite length_rev.
  generalize (Z.to_nat len) as n. intros n. revert value.
  induction n as [|n IH]; intros value; [reflexivity|].
  cbn [encode_bits_loop]. rewrite encode_bits_loop_acc, length_app, IH.
  reflexivity.
Qed.

Create Rewrite HintDb bitlen.
#[global] Hint Rewrite @length_app length_encode_bits length_byte_bits : bitlen.

(** [encode_bits value len] denotes [value] modulo [2 ^ len]: the high bits
    of a value that does not fit are dropped. *)
Lemma bits_value_encode_bits (value len : Z) :
  0 <= len -> bits_value (encode_bits value len) = value mod 2 ^ len.
Proof.
  intros Hlen. rewrite <- (Z2Nat.id len) by lia.
  generalize (Z.to_nat len) as n. clear. intros n. revert value.
  induction n as [|n IH]; intros value.
  - cbn. rewrite Z.mod_1_r. reflexivity.
  - rewrite encode_bits_succ, bits_value_app, IH.
    change (bits_value [Z.odd value]) with (2 * 0 + Z.b2z (Z.odd value)).
    change (2 ^ Z.of_nat (length [Z.odd value])) with 2.
    rewrite <- Z.bit0_odd, Z.bit0_mod, Z.shiftr_div_pow2 by lia.
    change (2 ^ 1) with 2.
    rewrite Nat2Z.inj_succ, Z.pow_succ_r by lia.
    rewrite (Z.rem_mul_r value 2 (2 ^ Z.of_nat n)); [lia|lia|].
    apply Z.pow_pos_nonneg; lia.
Qed.

(** ** The two shapes of a sample code *)

Lemma sample_code_cases (current_value val : Z) :
  let delta := val - current_value in
  (sample_code current_value val = [false] ++ encode_bits val 8
   /\ (delta < -8 \/ 7 < delta))
  \/ (sample_code current_value val
      = [true] ++ [delta <? 0] ++ encode_bits (delta mod 8) 3
      /\ -8 <= delta <= 7).
Proof.
  cbv zeta. unfold sample_code.
  change MIN_DIFF with (-8). change MAX_DIFF with 7.
  change DIFF_MOD with 8. change DIFF_VAL with 3.
  destruct (Z.ltb_spec (val - current_value) (-8));
    destruct (Z.gtb_spec (val - current_value) 7); cbn [orb];
    (left; split; [reflexivity|lia]) || (right; split; [reflexivity|lia]).
Qed.

(** ** Reading back what was written *)

Section EncodedStream.

(** A byte buffer, as [to_bytes] returns them. *)
Variable data : list Z.
Hypothesis Hdata : is_bytes data = true.

Lemma bit_range_at (pre l rest : list bool) (index len : Z) :
  bit_stream data = pre ++ l ++ rest ->
  index = Z.of_nat (length pre) -> len = Z.of_nat (length l) ->
  bit_range data index len = l.
Proof.
  intros Hs -> ->. unfold bit_range. rewrite Hs, !Nat2Z.id.
  rewrite drop_app_length, take_app_length. reflexivity.
Qed.

Lemma read_bits_at (pre l rest : list bool) (index len : Z) :
  bit_stream data = pre ++ l ++ rest ->
  index = Z.of_nat (length pre) -> len = Z.of_nat (length l) ->
  BitArray.read_bits (BitArray.init data) index len = Ok (bits_value l).
Proof.
  intros Hs Hi Hl.
  rewrite read_bits_in_bounds; try lia; try exact Hdata.
  - rewrite (bit_range_at pre l rest); auto.
  - apply (f_equal (@length bool)) in Hs.
    rewrite length_bit_stream, !length_app in Hs. lia.
Qed.

Lemma get_next_bits_at (pre l rest : list bool) (index len : Z) :
  bit_stream data = pre ++ l ++ rest ->
  index = Z.of_nat (length pre) -> len = Z.of_nat (length l) ->
  get_next_bits (BitArray.init data) index len = Ok (bits_value l, index + len).
Proof.
  intros Hs Hi Hl. unfold get_next_bits.
  rewrite (read_bits_at pre l rest) by assumption. reflexivity.
Qed.

(** Closes the side conditions of [get_next_bits_at]: the stream equation up
    to associativity, and the two lengths. *)
Ltac stream_side Hs :=
  first
    [ rewrite Hs, <- ?app_assoc; reflexivity
    | autorewrite with bitlen; cbn [length]; lia
    | autorewrite with bitlen; reflexivity ].

(** Reading one sample code back with the encoder's predictor gives the
    sample and moves the cursor past the code. *)
Lemma decode_sample_code (pre rest : list bool) (current_value val index : Z) :
  bit_stream data = pre ++ sample_code current_value val ++ rest ->
  index = Z.of_nat (length pre) ->
  0 <= val <= 255 ->
  decode_sample (BitArray.init data) index current_value
  = Ok (index + Z.of_nat (length (sample_code current_value val)), val).
Proof.
  intros Hs Hi Hval. unfold decode_sample.
  destruct (sample_code_cases current_value val) as [[E Hd]|[E Hd]];
    rewrite E in Hs |- *.
  - rewrite (get_next_bits_at pre [false] (encode_bits val 8 ++ rest));
      [|stream_side Hs|exact Hi|reflexivity].
    cbn [bind]. change (py_bool (bits_value [false])) with false. cbv iota.
    rewrite (get_next_bits_at (pre ++ [false]) (encode_bits val 8) rest);
      [|stream_side Hs..].
    cbn [bind]. rewrite bits_value_encode_bits by lia.
    change (2 ^ 8) with 256. rewrite Z.mod_small by lia.
    autorewrite with bitlen. cbn [length].
    f_equal. f_equal. lia.
  - set (delta := val - current_value) in *.
    set (m := encode_bits (delta mod 8) 3) in *.
    assert (Hm : length m = 3%nat) by apply length_encode_bits.
    rewrite (get_next_bits_at pre [true] ([delta <? 0] ++ m ++ rest));
      [|stream_side Hs|exact Hi|reflexivity].
    cbn [bind]. change (py_bool (bits_value [true])) with true. cbv iota.
    rewrite (get_next_bits_at (pre ++ [true]) [delta <? 0] (m ++ rest));
      [|stream_side Hs..].
    cbn [bind].
    rewrite (get_next_bits_at (pre ++ [true] ++ [delta <? 0]) m rest);
      [|stream_side Hs|stream_side Hs|rewrite Hm; reflexivity].
    cbn [bind]. unfold m in *. rewrite bits_value_encode_bits by lia.
    change (2 ^ 3) with 8. rewrite Z.mod_mod by lia.
    autorewrite with bitlen. cbn [length].
    change DIFF_MOD with 8. change DIFF_VAL with 3.
    f_equal. f_equal; [lia|].
    destruct (Z.ltb_spec delta 0) as [Hneg|Hpos].
    + change (py_bool (bits_value [true])) with true. cbv iota.
      assert (delta mod 8 = delta + 8)
        by (symmetry; apply Z.mod_unique_pos with (q := -1); lia).
      unfold delta in *. lia.
    + change (py_bool (bits_value [false])) with false. cbv iota.
      rewrite Z.mod_small by lia. unfold delta. lia.
Qed.

(** Reading a whole channel substream back gives the channel. *)
Lemma decode_channel_loop_code (step_size : Z) (channel : list Z) :
  step_size <> 0 \/ channel = [] ->
  Forall (fun v => 0 <= v <= 255) channel ->
  forall (pre rest : list bool) (index : Z) (p : progress)
         (current_value : Z) (acc : list Z),
  bit_stream data = pre ++ channel_code current_value channel ++ rest ->
  index = Z.of_nat (length pre) ->
  exists p',
    decode_channel_loop (BitArray.init data) step_size (length channel)
      index p current_value acc
    = Ok (index + Z.of_nat (length (channel_code current_value channel)),
          p', acc ++ channel).
Proof.
  intros Hstep Hall.
  induction Hall as [|val channel Hval Hall IH];
    intros pre rest index p current_value acc Hs Hi.
  - exists p. cbn. rewrite app_nil_r, Z.add_0_r. reflexivity.
  - destruct Hstep as [Hstep|?]; [|discriminate].
    cbn [length decode_channel_loop channel_code] in *.
    rewrite <- app_assoc in Hs.
    rewrite (decode_sample_code pre _ current_value val index Hs Hi Hval).
    cbn [bind].
    destruct (report_progress_ok step_size p Hstep) as (p1 & ->). cbn [bind].
    destruct (IH (or_introl Hstep) (pre ++ sample_code current_value val) rest
                (index + Z.of_nat (length (sample_code current_value val)))
                p1 val (acc ++ [val])) as (p2 & ->).
    + rewrite Hs, <- !app_assoc. reflexivity.
    + rewrite length_app. lia.
    + exists p2. rewrite length_app, <- app_assoc. f_equal. f_equal. f_equal. lia.
Qed.

End EncodedStream.

Lemma zip3_channels (pixels : PixelList) :
  zip3 (red_of pixels) (green_of pixels) (blue_of pixels) = pixels.
Proof.
  unfold red_of, green_of, blue_of.
  induction pixels as [|[[r g] b] pixels IH]; [reflexivity|].
  cbn. rewrite IH. reflexivity.
Qed.

Lemma valid_image_channels (width height : Z) (pixels : PixelList) :
  valid_image width height pixels = true ->
  0 <= width <= 65535 /\ 0 <= height <= 65535
  /\ Z.of_nat (length pixels) = width * height
  /\ Forall (fun v => 0 <= v <= 255) (red_of pixels)
  /\ Forall (fun v => 0 <= v <= 255) (green_of pixels)
  /\ Forall (fun v => 0 <= v <= 255) (blue_of pixels).
Proof.
  unfold valid_image. rewrite !andb_true_iff, !Z.leb_le, Z.eqb_eq.
  intros [[[[[? ?] ?] ?] ?] Hpx]. repeat (split; [lia|]).
  rewrite forallb_forall in Hpx.
  assert (Hc : forall p, In p pixels ->
    (0 <= fst (fst p) <= 255) /\ (0 <= snd (fst p) <= 255) /\ (0 <= snd p <= 255)).
  { intros [[r g] b] Hin. specialize (Hpx _ Hin). unfold valid_pixel, valid_channel in Hpx.
    rewrite !andb_true_iff, !Z.leb_le in Hpx. cbn. lia. }
  unfold red_of, green_of, blue_of. rewrite !Forall_map.
  repeat split; apply Forall_forall; intros p Hin;
    apply list_elem_of_In in Hin; apply Hc in Hin; cbn; lia.
Qed.

(** ** Round trip *)

(** Whenever the progress step is not zero (or there is no pixel at all),
    decoding the encoding of a valid image gives the image back. *)
Lemma roundtrip_nonzero_step (width height : Z) (pixels : PixelList) :
  valid_image width height pixels = true ->
  3 * width * height / 100 <> 0 \/ pixels = [] ->
  exists bytes,
    encode_image width height pixels = Ok bytes
    /\ decode_image bytes = Ok (width, height, pixels).
Proof.
  intros Hvalid Hstep.
  destruct (valid_image_channels _ _ _ Hvalid) as (Hw & Hh & Hlen & Hr & Hg & Hb).
  destruct (encode_image_spec width height pixels Hstep)
    as (bytes & pad & Henc & Hbytes & _ & Hstream).
  exists bytes. split; [exact Henc|].
  unfold frame_bits in Hstream. rewrite <- !app_assoc in Hstream.
  unfold decode_image, decode_image_io.
  rewrite (read_bits_at bytes Hbytes [] (encode_bits width 16) _ 0 16 Hstream);
    [|reflexivity|rewrite length_encode_bits; reflexivity].
  cbn [bind].
  rewrite (read_bits_at bytes Hbytes (encode_bits width 16) (encode_bits height 16)
             _ 16 16 Hstream);
    [|rewrite length_encode_bits; reflexivity
     |rewrite length_encode_bits; reflexivity].
  cbn [bind]. rewrite !bits_value_encode_bits by lia.
  change (2 ^ 16) with 65536. rewrite !Z.mod_small by lia.
  unfold decode_channel. rewrite <- Hlen, Nat2Z.id.
  assert (Hc : forall f : Pixel -> Z,
             3 * width * height / 100 <> 0 \/ map f pixels = []).
  { intros f. destruct Hstep as [Hs| ->]; [left; exact Hs|right; reflexivity]. }
  set (cr := channel_code 0 (red_of pixels)) in *.
  set (cg := channel_code 0 (green_of pixels)) in *.
  set (cb := channel_code 0 (blue_of pixels)) in *.
  set (hd := encode_bits width 16 ++ encode_bits height 16).
  assert (Hhd : Z.of_nat (length hd) = 32).
  { unfold hd. rewrite length_app, !length_encode_bits. reflexivity. }
  replace (length pixels) with (length (red_of pixels)) at 1
    by apply length_map.
  destruct (decode_channel_loop_code bytes Hbytes _ (red_of pixels) (Hc _) Hr
              hd (cg ++ cb ++ repeat false pad) 32 (mk_progress 0 0 []) 0 [])
    as (p1 & ->);
    [unfold hd; rewrite Hstream, <- !app_assoc; reflexivity|lia|].
  cbn [bind app]. fold cr.
  replace (length pixels) with (length (green_of pixels)) at 1
    by apply length_map.
  destruct (decode_channel_loop_code bytes Hbytes _ (green_of pixels) (Hc _) Hg
              (hd ++ cr) (cb ++ repeat false pad)
              (32 + Z.of_nat (length cr)) p1 0 [])
    as (p2 & ->);
    [unfold hd; rewrite Hstream, <- !app_assoc; reflexivity
    |rewrite length_app; lia|].
  cbn [bind app]. fold cg.
  replace (length pixels) with (length (blue_of pixels)) at 1
    by apply length_map.
  destruct (decode_channel_loop_code bytes Hbytes _ (blue_of pixels) (Hc _) Hb
              (hd ++ cr ++ cg) (repeat false pad)
              (32 + Z.of_nat (length cr) + Z.of_nat (length cg)) p2 0 [])
    as (p3 & ->);
    [unfold hd; rewrite Hstream, <- !app_assoc; reflexivity
    |rewrite !length_app; lia|].
  cbn [bind app]. rewrite zip3_channels. reflexivity.
Qed.

(** ** Bit positions *)

(** Bit [k] of a sequence, counted from the front, is bit
    [length - 1 - k] of its value. *)
Lemma bits_value_testbit (bits : list bool) (k : nat) (b : bool) :
  bits !! k = Some b ->
  Z.testbit (bits_value bits) (Z.of_nat (length bits) - 1 - Z.of_nat k) = b.
Proof.
  revert k. induction bits as [|x bits IH] using rev_ind; intros k Hk;
    [discriminate|].
  rewrite bits_value_app, length_app. cbn [length].
  change (bits_value [x]) with (2 * 0 + Z.b2z x).
  change (2 ^ Z.of_nat 1) with 2.
  replace (bits_value bits * 2 + (2 * 0 + Z.b2z x))
    with (2 * bits_value bits + Z.b2z x) by lia.
  destruct (Nat.lt_ge_cases k (length bits)) as [Hlt|Hge].
  - rewrite lookup_app_l in Hk by exact Hlt.
    replace (Z.of_nat (length bits + 1) - 1 - Z.of_nat k)
      with (Z.succ (Z.of_nat (length bits) - 1 - Z.of_nat k)) by lia.
    rewrite Z.testbit_succ_r by lia. apply IH, Hk.
  - apply lookup_lt_Some in Hk as Hlt. rewrite length_app in Hlt. cbn in Hlt.
    assert (k = length bits) as -> by lia.
    rewrite list_lookup_middle in Hk by reflexivity. injection Hk as ->.
    replace (Z.of_nat (length bits + 1) - 1 - Z.of_nat (length bits)) with 0 by lia.
    apply Z.testbit_0_r.
Qed.

(** Bit [i] of the stream is bit [7 - i mod 8] of byte [i / 8]. *)
Lemma bit_stream_lookup (data : list Z) (i : nat) (b : bool) :
  bit_stream data !! i = Some b ->
  exists byte, data !! (i / 8)%nat = Some byte
               /\ b = Z.testbit byte (7 - Z.of_nat (i mod 8)).
Proof.
  revert i. induction data as [|x data IH]; intros i Hi; [discriminate|].
  change (bit_stream (x :: data)) with (byte_bits x ++ bit_stream data) in Hi.
  destruct (Nat.lt_ge_cases i 8) as [Hlt|Hge].
  - exists x. rewrite Nat.div_small, Nat.mod_small by lia.
    split; [reflexivity|].
    rewrite lookup_app_l in Hi by (rewrite length_byte_bits; lia).
    do 8 (destruct i as [|i]; [injection Hi as <-; reflexivity|]). lia.
  - rewrite lookup_app_r in Hi by (rewrite length_byte_bits; lia).
    rewrite length_byte_bits in Hi.
    destruct (IH _ Hi) as (byte & Hb & ->). exists byte.
    replace i with (i - 8 + 1 * 8)%nat at 1 3 by lia.
    rewrite Nat.div_add, Nat.Div0.mod_add by lia.
    replace ((i - 8) / 8 + 1)%nat with (S ((i - 8) / 8)) by lia.
    split; [exact Hb|reflexivity].
Qed.

(** * The claims *)

(** C1 (the code departs from it).  Round trip on every valid image: the
    1 x 1 black image is valid, yet [encode_image] raises
    [ZeroDivisionError] on it instead of returning a buffer to decode.  The
    round trip does hold whenever the progress step is not zero, see
    [roundtrip_nonzero_step]. *)
Theorem C1_roundtrip_breaks_on_small_image :
  valid_image 1 1 [(0, 0, 0)] = true
  /\ encode_image 1 1 [(0, 0, 0)] = Raise ZeroDivisionError.
Proof. split; reflexivity. Qed.

(** C2.  For every width and height with [0 < 3 * width * height < 100] the
    progress step is 0: [encode_image] on every pixel list of width x height
    pixels (hence non-empty) raises [ZeroDivisionError], and so does
    [decode_image] on every buffer whose header declares that width and
    height.  Nothing is assumed of the width and height given to
    [encode_image] beyond the inequality: they may be negative. *)
Theorem C2_small_image_division_by_zero (width height : Z) :
  0 < 3 * width * height < 100 ->
  (forall pixels : PixelList,
     Z.of_nat (length pixels) = width * height ->
     encode_image width height pixels = Raise ZeroDivisionError)
  /\ (forall data : list Z,
        BitArray.read_bits (BitArray.init data) 0 16 = Ok width ->
        BitArray.read_bits (BitArray.init data) 16 16 = Ok height ->
        decode_image data = Raise ZeroDivisionError).
Proof.
  intros Hsmall.
  assert (Hstep : 3 * width * height / 100 = 0) by (apply Z.div_small; lia).
  split.
  - intros pixels Hlen. apply encode_image_zero_step; [exact Hstep|].
    intros ->. cbn [length] in Hlen. lia.
  - intros data Hw Hh.
    apply (decode_image_zero_step data width height); try assumption. lia.
Qed.

Lemma C2_small_image_division_by_zero_witness :
  0 < 3 * 1 * 1 < 100
  /\ 0 < 3 * (-1) * (-1) < 100
  /\ encode_image 1 1 [(7, 8, 9)] = Raise ZeroDivisionError
  /\ encode_image (-1) (-1) [(7, 8, 9)] = Raise ZeroDivisionError
  /\ decode_image [0; 1; 0; 1; 255] = Raise ZeroDivisionError.
Proof.
  split; [lia|]. split; [lia|].
  split; [apply (C2_small_image_division_by_zero 1 1); [lia|reflexivity]|].
  split; [apply (C2_small_image_division_by_zero (-1) (-1)); [lia|reflexivity]|].
  apply (C2_small_image_division_by_zero 1 1); [lia|reflexivity|reflexivity].
Defined.




(** C4 (as stated, refuted).  Reading 8 bits at offset 0 of the empty buffer
    asks for more bits than the buffer has, and returns 0. *)
Lemma C4_read_past_end_returns :
  8 * Z.of_nat (length (@nil Z)) < 0 + 8
  /\ BitArray.read_bits (BitArray.init []) 0 8 = Ok 0.
Proof. split; [cbn; lia|reflexivity]. Qed.

(** C4 (amended).  [read_bits] has no bounds check: for a non-negative offset
    and length with [bit_offset + length] beyond the buffer's bit count, the
    read does not fail; it returns an unsigned integer below [2 ^ length],
    computed from the bytes the buffer still has from byte [bit_offset // 8]
    on. *)
Theorem C4_read_bits_out_of_bounds (data : list Z) (index len : Z) :
  0 <= index -> 0 <= len ->
  8 * Z.of_nat (length data) < index + len ->
  exists v,
    BitArray.read_bits (BitArray.init data) index len = Ok v
    /\ 0 <= v < 2 ^ len
    /\ v = Z.shiftr (int_from_bytes (drop (Z.to_nat (index / 8)) data))
                    ((8 - (index + len)) mod 8) mod 2 ^ len.
Proof.
  intros Hi Hl Hout.
  destruct (read_bits_ok (BitArray.init data) index len Hl) as (v & Hv & Hr).
  exists v. split; [exact Hv|]. split; [exact Hr|].
  rewrite read_bits_eq in Hv by lia. injection Hv as <-.
  cbn [BitArray.data BitArray.init].
  rewrite py_slice_to_end; [reflexivity|apply Z.div_pos; lia|].
  pose proof (Z.div_mod (index + len + 7) 8 ltac:(lia)).
  pose proof (Z.mod_pos_bound (index + len + 7) 8 ltac:(lia)). lia.
Qed.

Lemma C4_read_bits_out_of_bounds_witness :
  0 <= 4 /\ 0 <= 8 /\ 8 * Z.of_nat (length [171]) < 4 + 8
  /\ exists v,
       BitArray.read_bits (BitArray.init [171]) 4 8 = Ok v
       /\ 0 <= v < 2 ^ 8
       /\ v = Z.shiftr (int_from_bytes (drop (Z.to_nat (4 / 8)) [171]))
                       ((8 - (4 + 8)) mod 8) mod 2 ^ 8.
Proof.
  split; [lia|]. split; [lia|]. split; [cbn; lia|].
  apply (C4_read_bits_out_of_bounds [171] 4 8); [lia|lia|cbn; lia].
Defined.

(** C5.  For every buffer, non-negative bit index and positive length,
    [read_bits] raises nothing and returns an unsigned integer below
    [2 ^ length]; when [index // 8] is at least the buffer's byte length, the
    slice is empty and the result is 0. *)
Theorem C5_read_bits_never_fails (self : BitArray.t) (index len : Z) :
  0 <= index -> 0 < len ->
  exists v,
    BitArray.read_bits self index len = Ok v
    /\ 0 <= v < 2 ^ len
    /\ (Z.of_nat (length (BitArray.data self)) <= index / 8 ->
        py_slice (BitArray.data self) (index / 8) ((index + len + 7) / 8) = []
        /\ v = 0).
Proof.
  intros Hi Hl.
  destruct (read_bits_ok self index len) as (v & Hv & Hr); [lia|].
  exists v. split; [exact Hv|]. split; [exact Hr|].
  intros Hpast. rewrite read_bits_eq in Hv by lia. injection Hv as <-.
  rewrite py_slice_past_end by exact Hpast. split; [reflexivity|].
  cbn [int_from_bytes fold_left]. rewrite Z.shiftr_0_l. apply Z.mod_0_l.
  apply Z.pow_nonzero; lia.
Qed.

Lemma C5_read_bits_never_fails_witness :
  0 <= 16 /\ 0 < 3
  /\ exists v,
       BitArray.read_bits (BitArray.init [171; 205]) 16 3 = Ok v
       /\ 0 <= v < 2 ^ 3
       /\ (Z.of_nat (length (BitArray.data (BitArray.init [171; 205]))) <= 16 / 8 ->
           py_slice (BitArray.data (BitArray.init [171; 205]))
             (16 / 8) ((16 + 3 + 7) / 8) = []
           /\ v = 0).
Proof.
  split; [lia|]. split; [lia|].
  apply (C5_read_bits_never_fails (BitArray.init [171; 205]) 16 3); lia.
Defined.

(** C6 (as stated, refuted).  A width that needs 17 bits, with one pixel
    where width x height is 65636: [encode_image] returns a buffer, whose
    header says width 100. *)
Lemma C6_invalid_dimension_encodes :
  65535 < 65636
  /\ Z.of_nat (length [(1, 2, 3)]) <> 65636 * 1
  /\ encode_image 65636 1 [(1, 2, 3)] = Ok [0; 100; 0; 1; 140; 166].
Proof. split; [lia|]. split; [cbn; lia|vm_compute; reflexivity]. Qed.

(** C6 (amended).  [encode_image] validates nothing: when the width or the
    height does not fit 16 unsigned bits, or the number of pixels is not
    width x height, it still returns a buffer whenever the progress step is
    not zero or there is no pixel.  The header holds the width and the height
    modulo [2 ^ 16], and the buffer codes exactly the pixels given. *)
Theorem C6_no_dimension_check (width height : Z) (pixels : PixelList) :
  ~ (0 <= width <= 65535) \/ ~ (0 <= height <= 65535)
  \/ Z.of_nat (length pixels) <> width * height ->
  3 * width * height / 100 <> 0 \/ pixels = [] ->
  exists bytes (pad : nat),
    encode_image width height pixels = Ok bytes
    /\ BitArray.read_bits (BitArray.init bytes) 0 16 = Ok (width mod 2 ^ 16)
    /\ BitArray.read_bits (BitArray.init bytes) 16 16 = Ok (height mod 2 ^ 16)
    /\ (pad < 8)%nat
    /\ bit_stream bytes = frame_bits width height pixels ++ repeat false pad.
Proof.
  intros _ Hstep.
  destruct (encode_image_spec width height pixels Hstep)
    as (bytes & pad & Henc & Hbytes & Hpad & Hstream).
  exists bytes, pad. split; [exact Henc|].
  pose proof Hstream as Hs. unfold frame_bits in Hs. rewrite <- !app_assoc in Hs.
  rewrite (read_bits_at bytes Hbytes [] (encode_bits width 16) _ 0 16 Hs);
    [|reflexivity|rewrite length_encode_bits; reflexivity].
  rewrite (read_bits_at bytes Hbytes (encode_bits width 16) (encode_bits height 16)
             _ 16 16 Hs);
    [|rewrite length_encode_bits; reflexivity
     |rewrite length_encode_bits; reflexivity].
  rewrite !bits_value_encode_bits by lia. auto.
Qed.

Lemma C6_no_dimension_check_witness :
  (~ (0 <= 65636 <= 65535) \/ ~ (0 <= 1 <= 65535)
   \/ Z.of_nat (length [(1, 2, 3)]) <> 65636 * 1)
  /\ (3 * 65636 * 1 / 100 <> 0 \/ [(1, 2, 3)] = [])
  /\ exists bytes (pad : nat),
       encode_image 65636 1 [(1, 2, 3)] = Ok bytes
       /\ BitArray.read_bits (BitArray.init bytes) 0 16 = Ok (65636 mod 2 ^ 16)
       /\ BitArray.read_bits (BitArray.init bytes) 16 16 = Ok (1 mod 2 ^ 16)
       /\ (pad < 8)%nat
       /\ bit_stream bytes = frame_bits 65636 1 [(1, 2, 3)] ++ repeat false pad.
Proof.
  split; [left; lia|]. split; [left; vm_compute; lia|].
  apply (C6_no_dimension_check 65636 1 [(1, 2, 3)]);
    [left; lia|left; vm_compute; lia].
Defined.

(** C7.  For a predictor and a sample in [0, 255] whose delta is in [-8, 7],
    the encoder appends the delta code (flag 1, sign bit [delta < 0], 3-bit
    magnitude [delta mod 8], which is in [0, 7]); the decoder, reading that
    code with the same predictor, takes the magnitude minus 8 when the sign
    bit is set and gets exactly the sample back. *)
Theorem C7_delta_code_roundtrip (predictor value : Z) :
  0 <= predictor <= 255 -> 0 <= value <= 255 ->
  -8 <= value - predictor <= 7 ->
  let delta := value - predictor in
  0 <= delta mod 8 <= 7
  /\ (if delta <? 0 then delta mod 8 - 8 else delta mod 8) = delta
  /\ exists b self' bytes,
       encode_sample (BitArray.init []) predictor value = Ok (b, value)
       /\ written b = [true; delta <? 0] ++ encode_bits (delta mod 8) 3
       /\ bits_value (encode_bits (delta mod 8) 3) = delta mod 8
       /\ BitArray.to_bytes b = Ok (self', bytes)
       /\ BitArray.read_bits (BitArray.init bytes) 0 1 = Ok 1
       /\ BitArray.read_bits (BitArray.init bytes) 1 1 = Ok (Z.b2z (delta <? 0))
       /\ BitArray.read_bits (BitArray.init bytes) 2 3 = Ok (delta mod 8)
       /\ decode_sample (BitArray.init bytes) 0 predictor = Ok (5, value).
Proof.
  intros Hp Hv Hd delta.
  pose proof (Z.mod_pos_bound delta 8 ltac:(lia)) as Hm.
  split; [lia|]. split.
  { destruct (Z.ltb_spec delta 0).
    - assert (delta mod 8 = delta + 8)
        by (symmetry; apply Z.mod_unique_pos with (q := -1); lia). lia.
    - apply Z.mod_small. unfold delta in *. lia. }
  destruct (encode_sample_spec (BitArray.init []) predictor value)
    as (b & Henc & Hwf & W); [apply wf_init; reflexivity|].
  destruct (to_bytes_spec b Hwf) as (self' & bytes & Hto & _ & _ & Hbytes & Hstream).
  rewrite written_init in W. cbn [bit_stream flat_map app] in W.
  destruct (sample_code_cases predictor value) as [[_ ?]|[E _]]; [lia|].
  fold delta in E.
  assert (Hmag : bits_value (encode_bits (delta mod 8) 3) = delta mod 8).
  { rewrite bits_value_encode_bits by lia. change (2 ^ 3) with 8.
    apply Z.mod_mod. lia. }
  exists b, self', bytes.
  split; [exact Henc|]. split; [rewrite W; exact E|]. split; [exact Hmag|].
  split; [exact Hto|].
  set (pad := repeat false _) in Hstream.
  set (m := encode_bits (delta mod 8) 3) in *.
  assert (Hs : bit_stream bytes = [true] ++ [delta <? 0] ++ m ++ pad).
  { rewrite Hstream, W, E, <- !app_assoc. reflexivity. }
  split.
  { rewrite (read_bits_at bytes Hbytes [] [true] ([delta <? 0] ++ m ++ pad));
      [reflexivity|exact Hs|reflexivity|reflexivity]. }
  split.
  { rewrite (read_bits_at bytes Hbytes [true] [delta <? 0] (m ++ pad));
      [|exact Hs|reflexivity|reflexivity].
    destruct (delta <? 0); reflexivity. }
  split.
  { rewrite (read_bits_at bytes Hbytes ([true] ++ [delta <? 0]) m pad);
      [|rewrite Hs, <- !app_assoc; reflexivity|reflexivity
       |unfold m; rewrite length_encode_bits; reflexivity].
    rewrite Hmag. reflexivity. }
  rewrite (decode_sample_code bytes Hbytes [] pad predictor value 0);
    [|rewrite Hstream, W; reflexivity|reflexivity|lia].
  rewrite E, !length_app. unfold m. rewrite length_encode_bits. reflexivity.
Qed.

Lemma C7_delta_code_roundtrip_witness :
  0 <= 10 <= 255 /\ 0 <= 2 <= 255 /\ -8 <= 2 - 10 <= 7
  /\ 0 <= (2 - 10) mod 8 <= 7
  /\ (if 2 - 10 <? 0 then (2 - 10) mod 8 - 8 else (2 - 10) mod 8) = 2 - 10
  /\ exists b self' bytes,
       encode_sample (BitArray.init []) 10 2 = Ok (b, 2)
       /\ written b = [true; 2 - 10 <? 0] ++ encode_bits ((2 - 10) mod 8) 3
       /\ bits_value (encode_bits ((2 - 10) mod 8) 3) = (2 - 10) mod 8
       /\ BitArray.to_bytes b = Ok (self', bytes)
       /\ BitArray.read_bits (BitArray.init bytes) 0 1 = Ok 1
       /\ BitArray.read_bits (BitArray.init bytes) 1 1 = Ok (Z.b2z (2 - 10 <? 0))
       /\ BitArray.read_bits (BitArray.init bytes) 2 3 = Ok ((2 - 10) mod 8)
       /\ decode_sample (BitArray.init bytes) 0 10 = Ok (5, 2).
Proof.
  split; [lia|]. split; [lia|]. split; [lia|].
  apply (C7_delta_code_roundtrip 10 2); lia.
Defined.

(** C8.  After a sample 10, the sample 2 (delta -8) is coded as a delta code
    with sign bit 1 and magnitude 000, and the sample 18 (delta 8) as a
    literal code; decoding either code with predictor 10 gives 2 and 18, and
    the channels [10, 2] and [10, 18] decode to themselves. *)
Theorem C8_delta_boundary :
  (let* (b, _) := encode_sample (BitArray.init []) 10 2 in
   let* (_, bytes) := BitArray.to_bytes b in
   Ok (written b, bytes))
  = Ok ([true; true; false; false; false], [0xC0])
  /\ decode_sample (BitArray.init [0xC0]) 0 10 = Ok (5, 2)
  /\ (let* (b, _) := encode_sample (BitArray.init []) 10 18 in
      let* (_, bytes) := BitArray.to_bytes b in
      Ok (written b, bytes))
     = Ok ([false] ++ encode_bits 18 8, [0x09; 0x00])
  /\ decode_sample (BitArray.init [0x09; 0x00]) 0 10 = Ok (9, 18)
  /\ channel_code 0 [10; 2]
     = ([false] ++ encode_bits 10 8) ++ [true; true; false; false; false]
  /\ channel_code 0 [10; 18]
     = ([false] ++ encode_bits 10 8) ++ ([false] ++ encode_bits 18 8)
  /\ (let* (b, _) :=
        encode_channel_loop 1 (BitArray.init []) (mk_progress 0 0 []) 0 [10; 2] in
      let* (_, bytes) := BitArray.to_bytes b in
      let* (index, _, channel) :=
        decode_channel_loop (BitArray.init bytes) 1 2 0 (mk_progress 0 0 []) 0 [] in
      Ok (written b, index, channel))
     = Ok (channel_code 0 [10; 2], 14, [10; 2])
  /\ (let* (b, _) :=
        encode_channel_loop 1 (BitArray.init []) (mk_progress 0 0 []) 0 [10; 18] in
      let* (_, bytes) := BitArray.to_bytes b in
      let* (index, _, channel) :=
        decode_channel_loop (BitArray.init bytes) 1 2 0 (mk_progress 0 0 []) 0 [] in
      Ok (written b, index, channel))
     = Ok (channel_code 0 [10; 18], 18, [10; 18]).
Proof. repeat split; vm_compute; reflexivity. Qed.

(** C9.  Appending the bits 1,0,1,1,0,1,0,0 to a fresh [BitArray] and calling
    [to_bytes] gives the single byte 0b10110100; appending any three bits and
    calling [to_bytes] gives one byte whose three high-order bits are those
    bits in order and whose five low-order bits are zero. *)
Theorem C9_bit_packing (b0 b1 b2 : bool) :
  (let* self := BitArray.add_bits (BitArray.init [])
                  [true; false; true; true; false; true; false; false] in
   let* (_, bytes) := BitArray.to_bytes self in
   Ok bytes) = Ok [0xB4]
  /\ 0xB4 = bits_value [true; false; true; true; false; true; false; false]
  /\ exists v,
       (let* self := BitArray.add_bits (BitArray.init []) [b0; b1; b2] in
        let* (_, bytes) := BitArray.to_bytes self in
        Ok bytes) = Ok [v]
       /\ byte_bits v = [b0; b1; b2; false; false; false; false; false]
       /\ v = Z.b2z b0 * 128 + Z.b2z b1 * 64 + Z.b2z b2 * 32.
Proof.
  split; [reflexivity|]. split; [reflexivity|].
  destruct b0, b1, b2; eexists; (split; [reflexivity|split; reflexivity]).
Qed.

(** C10.  On the buffer 0xAB 0xCD, [read_bits(4, 8)] is 0xBC.  For every
    buffer and every in-bounds offset and length, [read_bits] returns the
    bits of the range, first bit most significant: bit [length - 1 - k] of
    the result is bit [7 - (index + k) mod 8] of byte [(index + k) // 8]. *)
Theorem C10_read_bits_msb_first (data : list Z) (index len : Z) :
  is_bytes data = true ->
  0 <= index -> 0 <= len -> index + len <= 8 * Z.of_nat (length data) ->
  BitArray.read_bits (BitArray.init [0xAB; 0xCD]) 4 8 = Ok 0xBC
  /\ exists v,
       BitArray.read_bits (BitArray.init data) index len = Ok v
       /\ v = bits_value (bit_range data index len)
       /\ 0 <= v < 2 ^ len
       /\ forall k, 0 <= k < len ->
            exists byte,
              data !! Z.to_nat ((index + k) / 8) = Some byte
              /\ Z.testbit v (len - 1 - k)
                 = Z.testbit byte (7 - (index + k) mod 8).
Proof.
  intros Hdata Hi Hl Hb. split; [reflexivity|].
  exists (bits_value (bit_range data index len)).
  split; [apply read_bits_in_bounds; assumption|]. split; [reflexivity|].
  pose proof (length_bit_range data index len Hi Hl Hb) as Hlen.
  split.
  { pose proof (bits_value_range (bit_range data index len)) as R.
    rewrite Hlen, Z2Nat.id in R by lia. exact R. }
  intros k Hk.
  destruct (lookup_lt_is_Some_2 (bit_range data index len) (Z.to_nat k))
    as (b & Hbit); [lia|].
  pose proof (bits_value_testbit _ _ _ Hbit) as Ht.
  rewrite Hlen, !Z2Nat.id in Ht by lia. rewrite Ht.
  unfold bit_range in Hbit.
  rewrite lookup_take_lt, lookup_drop in Hbit by lia.
  destruct (bit_stream_lookup _ _ _ Hbit) as (byte & Hbyte & ->).
  exists byte.
  replace (Z.to_nat index + Z.to_nat k)%nat with (Z.to_nat (index + k)) in * by lia.
  split.
  - rewrite Z2Nat.inj_div by lia. exact Hbyte.
  - rewrite Nat2Z.inj_mod, Z2Nat.id by lia. reflexivity.
Qed.

Lemma C10_read_bits_msb_first_witness :
  is_bytes [0xAB; 0xCD] = true /\ 0 <= 4 /\ 0 <= 8
  /\ 4 + 8 <= 8 * Z.of_nat (length [0xAB; 0xCD])
  /\ BitArray.read_bits (BitArray.init [0xAB; 0xCD]) 4 8 = Ok 0xBC
  /\ exists v,
       BitArray.read_bits (BitArray.init [0xAB; 0xCD]) 4 8 = Ok v
       /\ v = bits_value (bit_range [0xAB; 0xCD] 4 8)
       /\ 0 <= v < 2 ^ 8
       /\ forall k, 0 <= k < 8 ->
            exists byte,
              [0xAB; 0xCD] !! Z.to_nat ((4 + k) / 8) = Some byte
              /\ Z.testbit v (8 - 1 - k) = Z.testbit byte (7 - (4 + k) mod 8).
Proof.
  split; [reflexivity|]. split; [lia|]. split; [lia|]. split; [cbn; lia|].
  apply (C10_read_bits_msb_first [0xAB; 0xCD] 4 8); [reflexivity|lia|lia|cbn; lia].
Defined.

(** * Further properties of the code *)

(** ** [encode_bits] and the writer *)

(** X1.  [encode_bits value length] has [length] bits, and its bit [k] from
    the front is bit [length - 1 - k] of [value] (two's complement for a
    negative [value]): most significant first, higher bits dropped. *)
Theorem X1_encode_bits_msb_first (value len k : Z) :
  0 <= k < len ->
  length (encode_bits value len) = Z.to_nat len
  /\ encode_bits value len !! Z.to_nat k = Some (Z.testbit value (len - 1 - k)).
Proof.
  intros Hk. split; [apply length_encode_bits|].
  destruct (lookup_lt_is_Some_2 (encode_bits value len) (Z.to_nat k)) as (b & Hb);
    [rewrite length_encode_bits; lia|].
  rewrite Hb. f_equal.
  pose proof (bits_value_testbit _ _ _ Hb) as Ht.
  rewrite length_encode_bits, !Z2Nat.id in Ht by lia.
  rewrite bits_value_encode_bits in Ht by lia.
  rewrite Z.mod_pow2_bits_low in Ht by lia. symmetry. exact Ht.
Qed.

Lemma X1_encode_bits_msb_first_witness :
  0 <= 2 < 3
  /\ length (encode_bits (-3) 3) = Z.to_nat 3
  /\ encode_bits (-3) 3 !! Z.to_nat 2 = Some (Z.testbit (-3) (3 - 1 - 2)).
Proof. split; [lia|]. apply (X1_encode_bits_msb_first (-3) 3 2). lia. Defined.

(** X2.  Appending bits in two calls of [add_bits] is appending their
    concatenation in one call, on every [BitArray] and including the case
    where a call raises. *)
Theorem X2_add_bits_app (self : BitArray.t) (bits1 bits2 : list bool) :
  BitArray.add_bits self (bits1 ++ bits2)
  = (let* self := BitArray.add_bits self bits1 in BitArray.add_bits self bits2).
Proof.
  revert self. induction bits1 as [|bit bits1 IH]; intros self; [reflexivity|].
  cbn [app BitArray.add_bits].
  destruct (BitArray.add_bit self bit) as [self1|e]; [|reflexivity].
  cbn [bind]. apply IH.
Qed.

Lemma wf_length_written (self : BitArray.t) :
  wf_bitarray self ->
  Z.of_nat (length (written self))
  = 8 * Z.of_nat (length (BitArray.data self)) + BitArray.index self
  /\ length (BitArray.buffer self) = 8%nat.
Proof.
  intros (_ & Hidx & pending & Hbuf & Hlen).
  assert (Hb : length (BitArray.buffer self) = 8%nat).
  { rewrite Hbuf, length_app, repeat_length. lia. }
  split; [|exact Hb].
  unfold written. rewrite length_app, length_bit_stream, length_take, Hb. lia.
Qed.

(** X3.  On a fresh [BitArray], [add_bits] followed by [to_bytes] never
    raises and returns [ceil(n / 8)] bytes, all in [range(256)], whose bits
    are the [n] bits given followed by [(-n) mod 8] zero bits. *)
Theorem X3_writer_pads_with_zeros (bits : list bool) :
  exists self self' bytes,
    BitArray.add_bits (BitArray.init []) bits = Ok self
    /\ BitArray.to_bytes self = Ok (self', bytes)
    /\ is_bytes bytes = true
    /\ Z.of_nat (length bytes) = (Z.of_nat (length bits) + 7) / 8
    /\ bit_stream bytes
       = bits ++ repeat false (Z.to_nat ((- Z.of_nat (length bits)) mod 8)).
Proof.
  destruct (add_bits_spec bits (BitArray.init [])) as (self & Hadd & Hwf & W);
    [apply wf_init; reflexivity|].
  rewrite written_init in W. cbn [bit_stream flat_map app] in W.
  destruct (to_bytes_spec self Hwf) as (self' & bytes & Hto & _ & _ & Hbytes & Hs).
  destruct (wf_length_written self Hwf) as [Hlen _].
  destruct Hwf as (_ & Hidx & _).
  rewrite W in Hlen, Hs.
  set (n := Z.of_nat (length bits)) in *.
  set (d := Z.of_nat (length (BitArray.data self))) in *.
  assert (Hpad : (8 - BitArray.index self) mod 8 = (- n) mod 8).
  { replace (8 - BitArray.index self) with (- n + (d + 1) * 8) by lia.
    apply Z.mod_add. lia. }
  rewrite Hpad in Hs.
  exists self, self', bytes. repeat (split; [assumption|]). split; [|exact Hs].
  apply (f_equal (@length bool)) in Hs.
  rewrite length_bit_stream, length_app, repeat_length in Hs.
  pose proof (Z.mod_pos_bound (- n) 8 ltac:(lia)) as Hb.
  apply Z.div_unique_pos with (r := 7 - (- n) mod 8); lia.
Qed.

Lemma add_bit_data_prefix (self self' : BitArray.t) (bit : bool) :
  BitArray.add_bit self bit = Ok self' ->
  exists more, BitArray.data self' = BitArray.data self ++ more.
Proof.
  unfold BitArray.add_bit, BitArray.flush.
  destruct (setitem _ _ _) as [buf|e]; [|discriminate]. cbn [bind].
  destruct (_ =? 8).
  - cbn [BitArray.data BitArray.buffer BitArray.index].
    destruct (BitArray.pack_buffer buf) as [v|e]; [|discriminate]. cbn [bind].
    destruct (py_bytes1 v) as [bs|e]; [|discriminate]. cbn [bind].
    intros [= <-]. exists bs. reflexivity.
  - intros [= <-]. exists []. cbn. rewrite app_nil_r. reflexivity.
Qed.

Lemma add_bits_data_prefix (bits : list bool) :
  forall self self' : BitArray.t,
  BitArray.add_bits self bits = Ok self' ->
  exists more, BitArray.data self' = BitArray.data self ++ more.
Proof.
  induction bits as [|bit bits IH]; intros self self' H.
  - injection H as <-. exists []. rewrite app_nil_r. reflexivity.
  - cbn [BitArray.add_bits] in H.
    destruct (BitArray.add_bit self bit) as [self1|e] eqn:E; [|discriminate].
    cbn [bind] in H. apply add_bit_data_prefix in E as (m1 & E1).
    apply IH in H as (m2 & E2). exists (m1 ++ m2).
    rewrite E2, E1, <- app_assoc. reflexivity.
Qed.

(** X4.  [add_bits] on a [BitArray] built from a byte buffer never raises and
    only appends: the bytes already in [data] stay, [n // 8] bytes are added,
    [n % 8] bits stay pending in an 8-slot [buffer], and the new bytes
    followed by the pending bits are exactly the bits given. *)
Theorem X4_add_bits_appends (data : list Z) (bits : list bool) :
  is_bytes data = true ->
  exists self more,
    BitArray.add_bits (BitArray.init data) bits = Ok self
    /\ BitArray.data self = data ++ more
    /\ is_bytes more = true
    /\ Z.of_nat (length more) = Z.of_nat (length bits) / 8
    /\ BitArray.index self = Z.of_nat (length bits) mod 8
    /\ length (BitArray.buffer self) = 8%nat
    /\ bit_stream more
       ++ take (Z.to_nat (BitArray.index self)) (BitArray.buffer self) = bits.
Proof.
  intros Hdata.
  destruct (add_bits_spec bits (BitArray.init data) (wf_init data Hdata))
    as (self & Hadd & Hwf & W).
  destruct (add_bits_data_prefix bits _ _ Hadd) as (more & Hmore).
  cbn [BitArray.data BitArray.init] in Hmore.
  destruct (wf_length_written self Hwf) as [Hlen Hbuf].
  pose proof Hwf as (Hb & Hidx & _).
  rewrite written_init in W.
  assert (Hbits : bit_stream more
            ++ take (Z.to_nat (BitArray.index self)) (BitArray.buffer self) = bits).
  { unfold written in W. rewrite Hmore, bit_stream_app, <- app_assoc in W.
    apply app_inv_head in W. exact W. }
  assert (Hn : Z.of_nat (length bits)
               = 8 * Z.of_nat (length more) + BitArray.index self).
  { rewrite <- Hbits, length_app, length_bit_stream, length_take, Hbuf. lia. }
  exists self, more. split; [exact Hadd|]. split; [exact Hmore|].
  split; [rewrite Hmore, is_bytes_app in Hb; apply andb_true_iff in Hb; apply Hb|].
  split; [apply Z.div_unique_pos with (r := BitArray.index self); lia|].
  split; [apply Z.mod_unique_pos with (q := Z.of_nat (length more)); lia|].
  split; [exact Hbuf|exact Hbits].
Qed.

Lemma X4_add_bits_appends_witness :
  is_bytes [7; 255] = true
  /\ exists self more,
       BitArray.add_bits (BitArray.init [7; 255])
         [true; false; true; true; false; true; false; false; true; true] = Ok self
       /\ BitArray.data self = [7; 255] ++ more
       /\ is_bytes more = true
       /\ Z.of_nat (length more) = Z.of_nat 10 / 8
       /\ BitArray.index self = Z.of_nat 10 mod 8
       /\ length (BitArray.buffer self) = 8%nat
       /\ bit_stream more
          ++ take (Z.to_nat (BitArray.index self)) (BitArray.buffer self)
          = [true; false; true; true; false; true; false; false; true; true].
Proof.
  split; [reflexivity|].
  apply (X4_add_bits_appends [7; 255]
           [true; false; true; true; false; true; false; false; true; true]).
  reflexivity.
Defined.

(** X5.  [to_bytes] is idempotent: once it has returned, calling it again
    returns the same bytes and leaves the object as it is (the pending bits
    were flushed, so nothing is appended twice). *)
Theorem X5_to_bytes_idempotent (self self' : BitArray.t) (bytes : list Z) :
  BitArray.to_bytes self = Ok (self', bytes) ->
  BitArray.to_bytes self' = Ok (self', bytes)
  /\ BitArray.data self' = bytes.
Proof.
  unfold BitArray.to_bytes at 1.
  destruct (BitArray.index self >? 0) eqn:E.
  - unfold BitArray.flush.
    destruct (BitArray.pack_buffer _) as [v|e]; [|discriminate]. cbn [bind].
    destruct (py_bytes1 v) as [bs|e]; [|discriminate]. cbn [bind].
    intros [= <- <-]. split; reflexivity.
  - intros [= <- <-]. unfold BitArray.to_bytes. rewrite E. split; reflexivity.
Qed.

Lemma X5_to_bytes_idempotent_witness :
  BitArray.to_bytes
    (BitArray.mk [9] [true; false; true; false; false; false; false; false] 3)
  = Ok (BitArray.mk [9; 160] (repeat false 8) 0, [9; 160])
  /\ BitArray.to_bytes (BitArray.mk [9; 160] (repeat false 8) 0)
     = Ok (BitArray.mk [9; 160] (repeat false 8) 0, [9; 160])
  /\ BitArray.data (BitArray.mk [9; 160] (repeat false 8) 0) = [9; 160].
Proof.
  split; [reflexivity|].
  apply (X5_to_bytes_idempotent
           (BitArray.mk [9] [true; false; true; false; false; false; false; false] 3)).
  reflexivity.
Defined.

(** ** The reader *)

Lemma bit_range_app (data more : list Z) (index len : Z) :
  0 <= index -> 0 <= len -> index + len <= 8 * Z.of_nat (length data) ->
  bit_range (data ++ more) index len = bit_range data index len.
Proof.
  intros Hi Hl Hb. unfold bit_range. rewrite bit_stream_app.
  pose proof (length_bit_stream data) as Hlen.
  rewrite drop_app_le by lia. apply take_app_le.
  rewrite length_drop. lia.
Qed.

(** X6.  A read that lies within the buffer does not depend on what follows
    it: appending bytes to the buffer leaves the result unchanged. *)
Theorem X6_read_bits_ignores_later_bytes (data more : list Z) (index len : Z) :
  is_bytes data = true -> is_bytes more = true ->
  0 <= index -> 0 <= len -> index + len <= 8 * Z.of_nat (length data) ->
  BitArray.read_bits (BitArray.init (data ++ more)) index len
  = BitArray.read_bits (BitArray.init data) index len.
Proof.
  intros Hd Hm Hi Hl Hb.
  rewrite (read_bits_in_bounds data) by assumption.
  rewrite (read_bits_in_bounds (data ++ more));
    [ rewrite bit_range_app by lia; reflexivity
    | rewrite is_bytes_app, Hd, Hm; reflexivity
    | lia | lia
    | rewrite length_app; lia ].
Qed.

Lemma X6_read_bits_ignores_later_bytes_witness :
  is_bytes [0xAB; 0xCD] = true /\ is_bytes [0xEF; 0x01] = true
  /\ 0 <= 4 /\ 0 <= 12 /\ 4 + 12 <= 8 * Z.of_nat (length [0xAB; 0xCD])
  /\ BitArray.read_bits (BitArray.init ([0xAB; 0xCD] ++ [0xEF; 0x01])) 4 12
     = BitArray.read_bits (BitArray.init [0xAB; 0xCD]) 4 12.
Proof.
  split; [reflexivity|]. split; [reflexivity|]. split; [lia|]. split; [lia|].
  split; [cbn; lia|].
  apply (X6_read_bits_ignores_later_bytes [0xAB; 0xCD] [0xEF; 0x01] 4 12);
    [reflexivity|reflexivity|lia|lia|cbn; lia].
Defined.

(** X7.  Two adjacent in-bounds reads compose: reading [len1 + len2] bits at
    once gives the first read shifted left by [len2] plus the second read. *)
Theorem X7_read_bits_adjacent (data : list Z) (index len1 len2 : Z) :
  is_bytes data = true ->
  0 <= index -> 0 <= len1 -> 0 <= len2 ->
  index + len1 + len2 <= 8 * Z.of_nat (length data) ->
  exists v1 v2,
    BitArray.read_bits (BitArray.init data) index len1 = Ok v1
    /\ BitArray.read_bits (BitArray.init data) (index + len1) len2 = Ok v2
    /\ BitArray.read_bits (BitArray.init data) index (len1 + len2)
       = Ok (v1 * 2 ^ len2 + v2).
Proof.
  intros Hd Hi Hl1 Hl2 Hb.
  exists (bits_value (bit_range data index len1)),
         (bits_value (bit_range data (index + len1) len2)).
  rewrite !read_bits_in_bounds; try lia; try assumption.
  split; [reflexivity|]. split; [reflexivity|]. f_equal.
  assert (E : bit_range data index (len1 + len2)
              = bit_range data index len1 ++ bit_range data (index + len1) len2).
  { unfold bit_range. rewrite Z2Nat.inj_add, take_add_app, drop_drop by lia.
    rewrite <- Z2Nat.inj_add by lia. reflexivity. }
  rewrite E, bits_value_app, length_bit_range, Z2Nat.id by lia. reflexivity.
Qed.

Lemma X7_read_bits_adjacent_witness :
  is_bytes [0xAB; 0xCD; 0xEF] = true
  /\ 0 <= 3 /\ 0 <= 7 /\ 0 <= 9
  /\ 3 + 7 + 9 <= 8 * Z.of_nat (length [0xAB; 0xCD; 0xEF])
  /\ exists v1 v2,
       BitArray.read_bits (BitArray.init [0xAB; 0xCD; 0xEF]) 3 7 = Ok v1
       /\ BitArray.read_bits (BitArray.init [0xAB; 0xCD; 0xEF]) (3 + 7) 9 = Ok v2
       /\ BitArray.read_bits (BitArray.init [0xAB; 0xCD; 0xEF]) 3 (7 + 9)
          = Ok (v1 * 2 ^ 9 + v2).
Proof.
  split; [reflexivity|]. split; [lia|]. split; [lia|]. split; [lia|].
  split; [cbn; lia|].
  apply (X7_read_bits_adjacent [0xAB; 0xCD; 0xEF] 3 7 9);
    [reflexivity|lia|lia|lia|cbn; lia].
Defined.

(** ** The decoder on arbitrary buffers *)

(** X8.  On any [BitArray], one iteration of the decoder never raises and
    consumes exactly 9 bits (literal: the new value is in [0, 255]) or exactly
    5 bits (delta: the new value is within [-8, +7] of the previous one);
    nothing keeps a decoded value inside [0, 255]. *)
Theorem X8_decode_sample_step (bits : BitArray.t) (index value : Z) :
  exists index' value',
    decode_sample bits index value = Ok (index', value')
    /\ ((index' = index + 9 /\ 0 <= value' <= 255)
        \/ (index' = index + 5 /\ value - 8 <= value' <= value + 7)).
Proof.
  unfold decode_sample.
  destruct (get_next_bits_ok bits index 1) as (flag & _ & ->); [lia|].
  cbn [bind]. destruct (py_bool flag).
  - destruct (get_next_bits_ok bits (index + 1) 1) as (sign & _ & ->); [lia|].
    cbn [bind].
    destruct (get_next_bits_ok bits (index + 1 + 1) DIFF_VAL) as (d & Hd & ->);
      [unfold DIFF_VAL, BITS_FOR_DIFF; lia|].
    cbn [bind]. change DIFF_VAL with 3 in *. change DIFF_MOD with 8.
    change (2 ^ 3) with 8 in Hd.
    eexists _, _. split; [reflexivity|]. right.
    destruct (py_bool sign); lia.
  - destruct (get_next_bits_ok bits (index + 1) 8) as (v & Hv & ->); [lia|].
    cbn [bind]. change (2 ^ 8) with 256 in Hv.
    eexists _, _. split; [reflexivity|]. left. lia.
Qed.

(** X9.  The outcome of [decode_image] on any buffer is decided by the 32
    header bits alone: with [width * height] between 1 and 33 it raises
    [ZeroDivisionError]; otherwise it returns the declared width and height
    and exactly [width * height] pixels (none when the product is 0). *)
Theorem X9_decode_image_outcome (data : list Z) :
  exists width height,
    BitArray.read_bits (BitArray.init data) 0 16 = Ok width
    /\ BitArray.read_bits (BitArray.init data) 16 16 = Ok height
    /\ 0 <= width < 65536 /\ 0 <= height < 65536
    /\ ((0 < width * height < 34
         /\ decode_image data = Raise ZeroDivisionError)
        \/ ((width * height = 0 \/ 34 <= width * height)
            /\ exists pixels,
                 decode_image data = Ok (width, height, pixels)
                 /\ Z.of_nat (length pixels) = width * height)).
Proof.
  destruct (read_bits_ok (BitArray.init data) 0 16) as (w & Hw & Rw); [lia|].
  destruct (read_bits_ok (BitArray.init data) 16 16) as (h & Hh & Rh); [lia|].
  change (2 ^ 16) with 65536 in *.
  exists w, h. repeat (split; [assumption|]).
  assert (Hnn : 0 <= w * h) by (apply Z.mul_nonneg_nonneg; lia).
  destruct (Z.eq_dec (w * h) 0) as [H0|Hne].
  - right. split; [left; exact H0|]. exists [].
    split; [|cbn [length]; lia].
    unfold decode_image, decode_image_io. rewrite Hw, Hh. cbn [bind].
    unfold decode_channel. rewrite H0. reflexivity.
  - destruct (Z.lt_ge_cases (w * h) 34) as [Hlt|Hge].
    + left. split; [lia|].
      apply (decode_image_zero_step data w h Hw Hh); [|lia].
      apply Z.div_small. lia.
    + right. split; [right; exact Hge|].
      apply (decode_image_returns data w h Hw Hh).
      assert (1 <= 3 * w * h / 100) by (apply Z.div_le_lower_bound; lia). lia.
Qed.

(** ** The encoder's output *)

Lemma length_sample_code (current_value val : Z) :
  length (sample_code current_value val) = 5%nat
  \/ length (sample_code current_value val) = 9%nat.
Proof.
  destruct (sample_code_cases current_value val) as [[-> _]|[-> _]];
    autorewrite with bitlen; cbn [length]; [right|left]; reflexivity.
Qed.

Lemma length_channel_code (channel : list Z) (current_value : Z) :
  (5 * length channel <= length (channel_code current_value channel)
   <= 9 * length channel)%nat.
Proof.
  revert current_value.
  induction channel as [|val channel IH]; intros current_value; [cbn; lia|].
  cbn [channel_code length]. rewrite length_app.
  specialize (IH val).
  destruct (length_sample_code current_value val) as [-> | ->]; lia.
Qed.

(** What an [Ok] result of [encode_image] is made of. *)
Lemma encode_image_ok_inv (width height : Z) (pixels : PixelList) (bytes : list Z) :
  encode_image width height pixels = Ok bytes ->
  (3 * width * height / 100 <> 0 \/ pixels = [])
  /\ is_bytes bytes = true
  /\ exists pad : nat,
       (pad < 8)%nat
       /\ bit_stream bytes = frame_bits width height pixels ++ repeat false pad.
Proof.
  intros Henc.
  assert (Hstep : 3 * width * height / 100 <> 0 \/ pixels = []).
  { destruct pixels as [|px pixels]; [right; reflexivity|]. left. intros H0.
    rewrite encode_image_zero_step in Henc; [discriminate|exact H0|discriminate]. }
  split; [exact Hstep|].
  destruct (encode_image_spec width height pixels Hstep)
    as (bytes' & pad & Henc' & Hb & Hpad & Hs).
  rewrite Henc in Henc'. injection Henc' as <-.
  split; [exact Hb|]. exists pad. auto.
Qed.

Lemma length_frame_bits (width height : Z) (pixels : PixelList) :
  (32 + 15 * length pixels <= length (frame_bits width height pixels)
   <= 32 + 27 * length pixels)%nat.
Proof.
  unfold frame_bits. rewrite !length_app, !length_encode_bits.
  pose proof (length_channel_code (red_of pixels) 0) as Hr.
  pose proof (length_channel_code (green_of pixels) 0) as Hg.
  pose proof (length_channel_code (blue_of pixels) 0) as Hb.
  unfold red_of, green_of, blue_of in *. rewrite !length_map in *.
  change (Z.to_nat 16) with 16%nat. lia.
Qed.

(** X10.  The outcome of [encode_image] on any arguments: it raises
    [ZeroDivisionError] exactly when there is a pixel and
    [0 <= 3 * width * height < 100]; otherwise it returns bytes in
    [range(256)], and the buffer takes between [32 + 15 n] and [39 + 27 n]
    bits for [n] pixels (5 to 9 bits per sample, less than a byte of
    padding). *)
Theorem X10_encode_image_outcome (width height : Z) (pixels : PixelList) :
  (pixels <> [] /\ 0 <= 3 * width * height < 100
   /\ encode_image width height pixels = Raise ZeroDivisionError)
  \/ ((pixels = [] \/ 3 * width * height < 0 \/ 100 <= 3 * width * height)
      /\ exists bytes,
           encode_image width height pixels = Ok bytes
           /\ is_bytes bytes = true
           /\ 32 + 15 * Z.of_nat (length pixels) <= 8 * Z.of_nat (length bytes)
              <= 39 + 27 * Z.of_nat (length pixels)).
Proof.
  assert (Hok : 3 * width * height / 100 <> 0 \/ pixels = [] ->
    exists bytes,
      encode_image width height pixels = Ok bytes
      /\ is_bytes bytes = true
      /\ 32 + 15 * Z.of_nat (length pixels) <= 8 * Z.of_nat (length bytes)
         <= 39 + 27 * Z.of_nat (length pixels)).
  { intros Hstep.
    destruct (encode_image_spec width height pixels Hstep)
      as (bytes & pad & Henc & Hb & Hpad & Hs).
    exists bytes. split; [exact Henc|]. split; [exact Hb|].
    apply (f_equal (@length bool)) in Hs.
    rewrite length_bit_stream, length_app, repeat_length in Hs.
    pose proof (length_frame_bits width height pixels). lia. }
  destruct pixels as [|px pixels].
  { right. split; [left; reflexivity|]. apply Hok. right. reflexivity. }
  destruct (Z.lt_ge_cases (3 * width * height) 0) as [Hneg|Hnn].
  { right. split; [right; left; exact Hneg|]. apply Hok. left.
    assert (3 * width * height / 100 < 0)
      by (apply Z.div_lt_upper_bound; lia). lia. }
  destruct (Z.lt_ge_cases (3 * width * height) 100) as [Hlt|Hge].
  - left. split; [discriminate|]. split; [lia|].
    apply encode_image_zero_step; [apply Z.div_small; lia|discriminate].
  - right. split; [right; right; exact Hge|]. apply Hok. left.
    assert (1 <= 3 * width * height / 100)
      by (apply Z.div_le_lower_bound; lia). lia.
Qed.

Lemma two_bytes_value (b0 b1 v : Z) :
  0 <= b0 < 256 -> 0 <= b1 < 256 ->
  bits_value (byte_bits b0 ++ byte_bits b1) = v mod 2 ^ 16 ->
  b0 = (v / 256) mod 256 /\ b1 = v mod 256.
Proof.
  intros H0 H1. rewrite bits_value_app, !bits_value_byte_bits by assumption.
  rewrite length_byte_bits. change (2 ^ Z.of_nat 8) with 256.
  change (2 ^ 16) with (256 * 256).
  rewrite (Z.rem_mul_r v 256 256) by lia.
  pose proof (Z.mod_pos_bound v 256 ltac:(lia)).
  pose proof (Z.mod_pos_bound (v / 256) 256 ltac:(lia)). lia.
Qed.

(** X11.  Every buffer [encode_image] returns starts with four header bytes:
    the width then the height, each as two bytes, high byte first, reduced
    modulo [2 ^ 16]. *)
Theorem X11_header_bytes (width height : Z) (pixels : PixelList) (bytes : list Z) :
  encode_image width height pixels = Ok bytes ->
  take 4 bytes
  = [(width / 256) mod 256; width mod 256; (height / 256) mod 256; height mod 256].
Proof.
  intros Henc.
  destruct (encode_image_ok_inv _ _ _ _ Henc) as (_ & Hb & pad & _ & Hs).
  pose proof (length_frame_bits width height pixels) as Hlen.
  assert (Hl : (4 <= length bytes)%nat).
  { apply (f_equal (@length bool)) in Hs.
    rewrite length_bit_stream, length_app in Hs. lia. }
  destruct bytes as [|b0 [|b1 [|b2 [|b3 rest]]]]; cbn [length] in Hl; try lia.
  apply is_bytes_cons in Hb as [R0 Hb]. apply is_bytes_cons in Hb as [R1 Hb].
  apply is_bytes_cons in Hb as [R2 Hb]. apply is_bytes_cons in Hb as [R3 Hb].
  unfold frame_bits in Hs. rewrite <- !app_assoc in Hs.
  assert (Hw : byte_bits b0 ++ byte_bits b1 = encode_bits width 16).
  { change (byte_bits b0 ++ byte_bits b1)
      with (take 16 (bit_stream (b0 :: b1 :: b2 :: b3 :: rest))).
    rewrite Hs. apply take_app_length'. rewrite length_encode_bits. reflexivity. }
  assert (Hh : byte_bits b2 ++ byte_bits b3 = encode_bits height 16).
  { change (byte_bits b2 ++ byte_bits b3)
      with (take 16 (drop 16 (bit_stream (b0 :: b1 :: b2 :: b3 :: rest)))).
    rewrite Hs, drop_app_length' by (rewrite length_encode_bits; reflexivity).
    apply take_app_length'. rewrite length_encode_bits. reflexivity. }
  apply (f_equal bits_value) in Hw, Hh.
  rewrite bits_value_encode_bits in Hw, Hh by lia.
  apply two_bytes_value in Hw as [-> ->]; [|assumption..].
  apply two_bytes_value in Hh as [-> ->]; [|assumption..].
  reflexivity.
Qed.

Lemma X11_header_bytes_witness :
  encode_image 65636 1 [(1, 2, 3)] = Ok [0; 100; 0; 1; 140; 166]
  /\ take 4 [0; 100; 0; 1; 140; 166]
     = [(65636 / 256) mod 256; 65636 mod 256; (1 / 256) mod 256; 1 mod 256].
Proof.
  split; [vm_compute; reflexivity|].
  apply (X11_header_bytes 65636 1 [(1, 2, 3)]). vm_compute. reflexivity.
Defined.

(** ** Round trips *)

(** Decoding any byte buffer whose bits start with the frame of a valid
    image gives the image, whatever follows the frame. *)
Lemma decode_frame (data : list Z) (rest : list bool)
  (width height : Z) (pixels : PixelList) :
  is_bytes data = true ->
  bit_stream data = frame_bits width height pixels ++ rest ->
  valid_image width height pixels = true ->
  3 * width * height / 100 <> 0 \/ pixels = [] ->
  decode_image data = Ok (width, height, pixels).
Proof.
  intros Hdata Hs Hvalid Hstep.
  destruct (valid_image_channels _ _ _ Hvalid) as (Hw & Hh & Hlen & Hr & Hg & Hb).
  unfold frame_bits in Hs. rewrite <- !app_assoc in Hs.
  unfold decode_image, decode_image_io.
  rewrite (read_bits_at data Hdata [] (encode_bits width 16) _ 0 16 Hs);
    [|reflexivity|rewrite length_encode_bits; reflexivity].
  cbn [bind].
  rewrite (read_bits_at data Hdata (encode_bits width 16) (encode_bits height 16)
             _ 16 16 Hs);
    [|rewrite length_encode_bits; reflexivity
     |rewrite length_encode_bits; reflexivity].
  cbn [bind]. rewrite !bits_value_encode_bits by lia.
  change (2 ^ 16) with 65536. rewrite !Z.mod_small by lia.
  unfold decode_channel. rewrite <- Hlen, Nat2Z.id.
  assert (Hc : forall f : Pixel -> Z,
             3 * width * height / 100 <> 0 \/ map f pixels = []).
  { intros f. destruct Hstep as [H| ->]; [left; exact H|right; reflexivity]. }
  set (cr := channel_code 0 (red_of pixels)) in *.
  set (cg := channel_code 0 (green_of pixels)) in *.
  set (cb := channel_code 0 (blue_of pixels)) in *.
  set (hd := encode_bits width 16 ++ encode_bits height 16).
  assert (Hhd : Z.of_nat (length hd) = 32).
  { unfold hd. rewrite length_app, !length_encode_bits. reflexivity. }
  replace (length pixels) with (length (red_of pixels)) at 1 by apply length_map.
  destruct (decode_channel_loop_code data Hdata _ (red_of pixels) (Hc _) Hr
              hd (cg ++ cb ++ rest) 32 (mk_progress 0 0 []) 0 [])
    as (p1 & ->);
    [unfold hd; rewrite Hs, <- !app_assoc; reflexivity|lia|].
  cbn [bind app]. fold cr.
  replace (length pixels) with (length (green_of pixels)) at 1 by apply length_map.
  destruct (decode_channel_loop_code data Hdata _ (green_of pixels) (Hc _) Hg
              (hd ++ cr) (cb ++ rest) (32 + Z.of_nat (length cr)) p1 0 [])
    as (p2 & ->);
    [unfold hd; rewrite Hs, <- !app_assoc; reflexivity|rewrite length_app; lia|].
  cbn [bind app]. fold cg.
  replace (length pixels) with (length (blue_of pixels)) at 1 by apply length_map.
  destruct (decode_channel_loop_code data Hdata _ (blue_of pixels) (Hc _) Hb
              (hd ++ cr ++ cg) rest
              (32 + Z.of_nat (length cr) + Z.of_nat (length cg)) p2 0 [])
    as (p3 & ->);
    [unfold hd; rewrite Hs, <- !app_assoc; reflexivity
    |rewrite !length_app; lia|].
  cbn [bind app]. rewrite zip3_channels. reflexivity.
Qed.

Lemma valid_image_step (width height : Z) (pixels : PixelList) :
  valid_image width height pixels = true ->
  width * height = 0 \/ 34 <= width * height ->
  3 * width * height / 100 <> 0 \/ pixels = [].
Proof.
  intros Hvalid Hsize.
  destruct (valid_image_channels _ _ _ Hvalid) as (_ & _ & Hlen & _).
  destruct Hsize as [H0|Hbig].
  - right. destruct pixels; [reflexivity|]. cbn [length] in Hlen. lia.
  - left. assert (1 <= 3 * width * height / 100)
      by (apply Z.div_le_lower_bound; lia). lia.
Qed.

(** X12.  For a valid image with no pixel or with at least 34 pixels,
    [encode_image] returns a buffer that [decode_image] maps back to the same
    width, height and pixels, also when further bytes follow the buffer: the
    decoder reads the frame and ignores what comes after it. *)
Theorem X12_roundtrip_and_trailing_bytes
  (width height : Z) (pixels : PixelList) (extra : list Z) :
  valid_image width height pixels = true ->
  width * height = 0 \/ 34 <= width * height ->
  is_bytes extra = true ->
  exists bytes,
    encode_image width height pixels = Ok bytes
    /\ decode_image bytes = Ok (width, height, pixels)
    /\ decode_image (bytes ++ extra) = Ok (width, height, pixels).
Proof.
  intros Hvalid Hsize Hextra.
  pose proof (valid_image_step _ _ _ Hvalid Hsize) as Hstep.
  destruct (encode_image_spec width height pixels Hstep)
    as (bytes & pad & Henc & Hb & _ & Hs).
  exists bytes. split; [exact Henc|]. split.
  - apply (decode_frame bytes (repeat false pad)); assumption.
  - apply (decode_frame (bytes ++ extra) (repeat false pad ++ bit_stream extra));
      try assumption.
    + rewrite is_bytes_app, Hb, Hextra. reflexivity.
    + rewrite bit_stream_app, Hs, <- app_assoc. reflexivity.
Qed.

Lemma X12_roundtrip_and_trailing_bytes_witness :
  valid_image 34 1 example_pixels = true
  /\ (34 * 1 = 0 \/ 34 <= 34 * 1)
  /\ is_bytes [1; 2; 3] = true
  /\ exists bytes,
       encode_image 34 1 example_pixels = Ok bytes
       /\ decode_image bytes = Ok (34, 1, example_pixels)
       /\ decode_image (bytes ++ [1; 2; 3]) = Ok (34, 1, example_pixels).
Proof.
  split; [reflexivity|]. split; [right; lia|]. split; [reflexivity|].
  apply (X12_roundtrip_and_trailing_bytes 34 1 example_pixels [1; 2; 3]);
    [reflexivity|right; lia|reflexivity].
Defined.

(** X13.  [encode_image] is injective on valid images: two valid images given
    the same buffer are the same image. *)
Theorem X13_encode_image_injective
  (width1 height1 width2 height2 : Z) (pixels1 pixels2 : PixelList)
  (bytes : list Z) :
  valid_image width1 height1 pixels1 = true ->
  valid_image width2 height2 pixels2 = true ->
  encode_image width1 height1 pixels1 = Ok bytes ->
  encode_image width2 height2 pixels2 = Ok bytes ->
  width1 = width2 /\ height1 = height2 /\ pixels1 = pixels2.
Proof.
  intros Hv1 Hv2 He1 He2.
  destruct (encode_image_ok_inv _ _ _ _ He1) as (Hs1 & Hb & pad1 & _ & E1).
  destruct (encode_image_ok_inv _ _ _ _ He2) as (Hs2 & _ & pad2 & _ & E2).
  pose proof (decode_frame bytes _ _ _ _ Hb E1 Hv1 Hs1) as D1.
  pose proof (decode_frame bytes _ _ _ _ Hb E2 Hv2 Hs2) as D2.
  rewrite D1 in D2. injection D2 as -> -> ->. auto.
Qed.

Lemma X13_encode_image_injective_witness :
  valid_image 34 1 example_pixels = true
  /\ valid_image 34 1 (example_pixels ++ []) = true
  /\ encode_image 34 1 example_pixels = Ok example_bytes
  /\ encode_image 34 1 (example_pixels ++ []) = Ok example_bytes
  /\ 34 = 34 /\ 1 = 1 /\ example_pixels = example_pixels ++ [].
Proof.
  split; [reflexivity|]. split; [reflexivity|].
  split; [vm_compute; reflexivity|]. split; [vm_compute; reflexivity|].
  apply (X13_encode_image_injective 34 1 34 1
           example_pixels (example_pixels ++ []) example_bytes);
    [reflexivity|reflexivity|vm_compute; reflexivity|vm_compute; reflexivity].
Defined.

(** ** [is_same_image] and the check of [main] *)

Lemma getitem_lookup {A : Type} (l : list A) (i : nat) (x : A) :
  l !! i = Some x -> getitem l (Z.of_nat i) = Ok x.
Proof.
  intros H. pose proof (lookup_lt_Some _ _ _ H) as Hlt.
  unfold getitem, py_index.
  destruct (Z.ltb_spec (Z.of_nat i) 0) as [?|_]; [lia|].
  destruct (Z.leb_spec 0 (Z.of_nat i)) as [_|?]; [|lia].
  destruct (Z.ltb_spec (Z.of_nat i) (Z.of_nat (length l))) as [_|?]; [|lia].
  cbn [andb bind]. rewrite Nat2Z.id, H. reflexivity.
Qed.

Lemma pixel_eqb_eq (a b : Pixel) : pixel_eqb a b = true <-> a = b.
Proof.
  destruct a as [[ar ag] ab], b as [[br bg] bb]. unfold pixel_eqb.
  rewrite !andb_true_iff, !Z.eqb_eq. split.
  - intros [[-> ->] ->]. reflexivity.
  - intros [= -> -> ->]. auto.
Qed.

Lemma is_same_image_loop_spec (pixels_a pixels_b : PixelList) (indices : list nat) :
  length pixels_a = length pixels_b ->
  Forall (fun i => (i < length pixels_a)%nat) indices ->
  exists r,
    is_same_image_loop pixels_a pixels_b indices = Ok r
    /\ (r = true <-> Forall (fun i => pixels_a !! i = pixels_b !! i) indices).
Proof.
  intros Hlen Hall. induction Hall as [|i indices Hi Hall IH].
  - exists true. split; [reflexivity|]. split; [constructor|reflexivity].
  - cbn [is_same_image_loop].
    destruct (lookup_lt_is_Some_2 pixels_a i Hi) as (a & Ha).
    destruct (lookup_lt_is_Some_2 pixels_b i) as (b & Hb); [lia|].
    rewrite (getitem_lookup _ _ _ Ha), (getitem_lookup _ _ _ Hb). cbn [bind].
    destruct (pixel_eqb a b) eqn:E; cbn [negb].
    + apply pixel_eqb_eq in E as ->.
      destruct IH as (r & -> & Hr). exists r. split; [reflexivity|].
      rewrite Hr, Forall_cons. cbv beta.
      split; [intros H; split; [|exact H]|intros [_ H]; exact H].
      transitivity (Some b); [exact Ha|symmetry; exact Hb].
    + exists false. split; [reflexivity|]. split; [discriminate|].
      rewrite Forall_cons. cbv beta. intros [Heq _].
      assert (Hab : Some a = Some b).
      { transitivity (pixels_a !! i); [symmetry; exact Ha|].
        transitivity (pixels_b !! i); [exact Heq|exact Hb]. }
      injection Hab as ->.
      assert (pixel_eqb b b = true) by (apply pixel_eqb_eq; reflexivity).
      congruence.
Qed.

Lemma is_same_image_eq (pixels_a pixels_b : PixelList) :
  is_same_image pixels_a pixels_b = Ok (bool_decide (pixels_a = pixels_b)).
Proof.
  unfold is_same_image.
  destruct (Z.eqb_spec (Z.of_nat (length pixels_a)) (Z.of_nat (length pixels_b)))
    as [Hlen|Hlen]; cbn [negb].
  - apply Nat2Z.inj in Hlen.
    destruct (is_same_image_loop_spec pixels_a pixels_b (seq 0 (length pixels_a)) Hlen)
      as (r & -> & Hr).
    { apply Forall_forall. intros i Hin. apply elem_of_seq in Hin. lia. }
    f_equal. destruct r; symmetry.
    + apply bool_decide_eq_true_2. apply list_eq. intros i.
      destruct (Nat.lt_ge_cases i (length pixels_a)) as [Hlt|Hge].
      * destruct Hr as [Hr _]. specialize (Hr eq_refl).
        rewrite Forall_forall in Hr. apply Hr. apply elem_of_seq. lia.
      * rewrite !lookup_ge_None_2 by lia. reflexivity.
    + apply bool_decide_eq_false_2. intros ->.
      destruct Hr as [_ Hr]. discriminate Hr.
      apply Forall_forall. reflexivity.
  - f_equal. symmetry. apply bool_decide_eq_false_2. intros ->. contradiction.
Qed.

(** X14.  [is_same_image] never raises and returns [True] exactly when the
    two pixel lists are equal: same length and the same pixel at every
    index. *)
Theorem X14_is_same_image_decides_equality (pixels_a pixels_b : PixelList) :
  is_same_image pixels_a pixels_b = Ok (bool_decide (pixels_a = pixels_b)).
Proof. apply is_same_image_eq. Qed.

(** X15.  The check at the end of [main] passes for every valid image with at
    least 34 pixels (or none): [is_same_image] of the input pixels and the
    pixels decoded from the encoded image is [True]. *)
Theorem X15_main_check_passes (width height : Z) (pixels : PixelList) :
  valid_image width height pixels = true ->
  width * height = 0 \/ 34 <= width * height ->
  exists encoded_image output_pixels,
    encode_image width height pixels = Ok encoded_image
    /\ decode_image encoded_image = Ok (width, height, output_pixels)
    /\ is_same_image pixels output_pixels = Ok true.
Proof.
  intros Hvalid Hsize.
  pose proof (valid_image_step _ _ _ Hvalid Hsize) as Hstep.
  destruct (encode_image_spec width height pixels Hstep)
    as (bytes & pad & Henc & Hb & _ & Hs).
  exists bytes, pixels. split; [exact Henc|]. split.
  - apply (decode_frame bytes (repeat false pad)); assumption.
  - rewrite is_same_image_eq. f_equal. apply bool_decide_eq_true_2. reflexivity.
Qed.

Lemma X15_main_check_passes_witness :
  valid_image 34 1 example_pixels = true
  /\ (34 * 1 = 0 \/ 34 <= 34 * 1)
  /\ exists encoded_image output_pixels,
       encode_image 34 1 example_pixels = Ok encoded_image
       /\ decode_image encoded_image = Ok (34, 1, output_pixels)
       /\ is_same_image example_pixels output_pixels = Ok true.
Proof.
  split; [reflexivity|]. split; [right; lia|].
  apply (X15_main_check_passes 34 1 example_pixels); [reflexivity|right; lia].
Defined.

(** ** Samples outside [0, 255] *)

Lemma decode_sample_code_any (data : list Z) (pre rest : list bool)
  (current_value val index : Z) :
  is_bytes data = true ->
  bit_stream data = pre ++ sample_code current_value val ++ rest ->
  index = Z.of_nat (length pre) ->
  decode_sample (BitArray.init data) index current_value
  = Ok (index + Z.of_nat (length (sample_code current_value val)),
        decoded_sample current_value val).
Proof.
  intros Hdata Hs Hi. unfold decode_sample, decoded_sample.
  change MIN_DIFF with (-8). change MAX_DIFF with 7.
  destruct (sample_code_cases current_value val) as [[E Hd]|[E Hd]];
    rewrite E in Hs |- *.
  - replace ((val - current_value <? -8) || (val - current_value >? 7)) with true
      by (symmetry; apply orb_true_iff; rewrite Z.ltb_lt, Z.gtb_gt; lia).
    rewrite (get_next_bits_at data Hdata pre [false] (encode_bits val 8 ++ rest));
      [|rewrite Hs, <- !app_assoc; reflexivity|exact Hi|reflexivity].
    cbn [bind]. change (py_bool (bits_value [false])) with false. cbv iota.
    rewrite (get_next_bits_at data Hdata (pre ++ [false]) (encode_bits val 8) rest);
      [|rewrite Hs, <- !app_assoc; reflexivity
       |rewrite length_app; cbn [length]; lia
       |rewrite length_encode_bits; reflexivity].
    cbn [bind]. rewrite bits_value_encode_bits by lia.
    change (2 ^ 8) with 256.
    rewrite length_app, length_encode_bits. cbn [length].
    f_equal. f_equal. lia.
  - replace ((val - current_value <? -8) || (val - current_value >? 7)) with false
      by (symmetry; apply orb_false_iff; rewrite Z.ltb_ge, Z.gtb_ltb, Z.ltb_ge; lia).
    set (delta := val - current_value) in *.
    set (m := encode_bits (delta mod 8) 3) in *.
    assert (Hm : length m = 3%nat) by apply length_encode_bits.
    rewrite (get_next_bits_at data Hdata pre [true] ([delta <? 0] ++ m ++ rest));
      [|rewrite Hs, <- !app_assoc; reflexivity|exact Hi|reflexivity].
    cbn [bind]. change (py_bool (bits_value [true])) with true. cbv iota.
    rewrite (get_next_bits_at data Hdata (pre ++ [true]) [delta <? 0] (m ++ rest));
      [|rewrite Hs, <- !app_assoc; reflexivity
       |rewrite length_app; cbn [length]; lia|reflexivity].
    cbn [bind].
    rewrite (get_next_bits_at data Hdata (pre ++ [true] ++ [delta <? 0]) m rest);
      [|rewrite Hs, <- !app_assoc; reflexivity
       |rewrite !length_app; cbn [length]; lia
       |rewrite Hm; reflexivity].
    cbn [bind]. unfold m in *. rewrite bits_value_encode_bits by lia.
    change (2 ^ 3) with 8. rewrite Z.mod_mod by lia.
    rewrite !length_app, length_encode_bits. cbn [length].
    change DIFF_MOD with 8. change DIFF_VAL with 3.
    f_equal. f_equal; [lia|].
    destruct (Z.ltb_spec delta 0) as [Hneg|Hpos].
    + change (py_bool (bits_value [true])) with true. cbv iota.
      assert (delta mod 8 = delta + 8)
        by (symmetry; apply Z.mod_unique_pos with (q := -1); lia).
      unfold delta in *. lia.
    + change (py_bool (bits_value [false])) with false. cbv iota.
      rewrite Z.mod_small by lia. unfold delta. lia.
Qed.

(** X16.  No sample is rejected for being outside [0, 255].  For any two
    integers, the encoder codes [val] against the predictor and the decoder
    reads the code back without error: it gets [val] itself when the delta is
    in [-8, 7] (even if [val] is outside [0, 255]) and [val % 256] when the
    literal path is taken. *)
Theorem X16_sample_outside_byte_range (current_value val : Z) :
  exists b self' bytes,
    encode_sample (BitArray.init []) current_value val = Ok (b, val)
    /\ BitArray.to_bytes b = Ok (self', bytes)
    /\ decode_sample (BitArray.init bytes) 0 current_value
       = Ok (Z.of_nat (length (sample_code current_value val)),
             if (val - current_value <? -8) || (val - current_value >? 7)
             then val mod 256 else val).
Proof.
  destruct (encode_sample_spec (BitArray.init []) current_value val)
    as (b & Henc & Hwf & W); [apply wf_init; reflexivity|].
  destruct (to_bytes_spec b Hwf) as (self' & bytes & Hto & _ & _ & Hbytes & Hs).
  rewrite written_init in W. cbn [bit_stream flat_map app] in W.
  exists b, self', bytes. split; [exact Henc|]. split; [exact Hto|].
  rewrite (decode_sample_code_any bytes []
             (repeat false (Z.to_nat ((8 - BitArray.index b) mod 8)))
             current_value val 0 Hbytes);
    [reflexivity|rewrite Hs, W; reflexivity|reflexivity].
Qed.

(** ** The progress lines *)

Lemma progress_step (s i : Z) :
  0 < s -> 0 <= i ->
  ((i + 1) mod s = 0 /\ (i + 1) / s = i / s + 1)
  \/ ((i + 1) mod s <> 0 /\ (i + 1) / s = i / s).
Proof.
  intros Hs Hi.
  pose proof (Z.div_mod i s ltac:(lia)) as Hdm.
  pose proof (Z.mod_pos_bound i s Hs) as Hm.
  destruct (Z.eq_dec (i mod s + 1) s) as [E|E].
  - left. split.
    + symmetry. apply Z.mod_unique_pos with (q := i / s + 1); lia.
    + symmetry. apply Z.div_unique_pos with (r := 0); lia.
  - right. split.
    + assert ((i + 1) mod s = i mod s + 1)
        by (symmetry; apply Z.mod_unique_pos with (q := i / s); lia). lia.
    + symmetry. apply Z.div_unique_pos with (r := i mod s + 1); lia.
Qed.

Lemma report_progress_at (s i : Z) :
  0 < s -> 0 <= i ->
  report_progress s (progress_at s i) = Ok (progress_at s (i + 1)).
Proof.
  intros Hs Hi. unfold report_progress, progress_at, py_mod.
  cbn [step sample_index stdout].
  destruct (Z.eqb_spec s 0) as [?|_]; [lia|]. cbn [bind].
  pose proof (Z.div_pos i s Hi Hs) as Hq.
  destruct (progress_step s i Hs Hi) as [[Hm Hd]|[Hm Hd]]; rewrite Hd.
  - rewrite Hm. cbn [Z.eqb]. f_equal. f_equal.
    replace (Z.to_nat (i / s + 1)) with (S (Z.to_nat (i / s))) by lia.
    rewrite seq_S, map_app. cbn [map]. f_equal. f_equal. lia.
  - destruct (Z.eqb_spec ((i + 1) mod s) 0) as [?|_]; [contradiction|].
    reflexivity.
Qed.

Lemma progress_at_0 (s : Z) : progress_at s 0 = mk_progress 0 0 [].
Proof. unfold progress_at. rewrite Zdiv_0_l. reflexivity. Qed.

Lemma encode_channel_loop_progress (s : Z) (channel : list Z) :
  0 < s ->
  forall (b : BitArray.t) (i current_value : Z),
  wf_bitarray b -> 0 <= i ->
  exists b',
    encode_channel_loop s b (progress_at s i) current_value channel
    = Ok (b', progress_at s (i + Z.of_nat (length channel)))
    /\ wf_bitarray b'.
Proof.
  intros Hs. induction channel as [|val rest IH]; intros b i current_value Hwf Hi.
  - exists b. cbn. rewrite Z.add_0_r. auto.
  - cbn [encode_channel_loop length].
    destruct (encode_sample_spec b current_value val Hwf) as (b1 & -> & Hwf1 & _).
    cbn [bind]. rewrite report_progress_at by lia. cbn [bind].
    destruct (IH b1 (i + 1) val Hwf1 ltac:(lia)) as (b2 & -> & Hwf2).
    exists b2. split; [|exact Hwf2]. f_equal. f_equal. f_equal. lia.
Qed.

Lemma decode_channel_loop_progress (bits : BitArray.t) (s : Z) (n : nat) :
  0 < s ->
  forall (index i value : Z) (channel : list Z),
  0 <= i ->
  exists index' channel',
    decode_channel_loop bits s n index (progress_at s i) value channel
    = Ok (index', progress_at s (i + Z.of_nat n), channel').
Proof.
  intros Hs. induction n as [|n IH]; intros index i value channel Hi.
  - exists index, channel. cbn. rewrite Z.add_0_r. reflexivity.
  - cbn [decode_channel_loop].
    destruct (decode_sample_ok bits index value) as (i1 & v1 & ->). cbn [bind].
    rewrite report_progress_at by lia. cbn [bind].
    destruct (IH i1 (i + 1) v1 (channel ++ [v1]) ltac:(lia)) as (i2 & ch & ->).
    exists i2, ch. f_equal. f_equal. f_equal. f_equal. lia.
Qed.

Lemma progress_count (total : Z) :
  100 <= total ->
  0 < total / 100 /\ 100 <= total / (total / 100) <= 199.
Proof.
  intros Ht.
  pose proof (Z.div_mod total 100 ltac:(lia)) as Hdm.
  pose proof (Z.mod_pos_bound total 100 ltac:(lia)) as Hm.
  assert (Hs : 1 <= total / 100) by (apply Z.div_le_lower_bound; lia).
  split; [lia|]. split.
  - apply Z.div_le_lower_bound; lia.
  - assert (total / (total / 100) < 200) by (apply Z.div_lt_upper_bound; lia).
    lia.
Qed.

(** X17.  With [3 * width * height >= 100] and a matching pixel list,
    [encode_image] prints the lines 1%, 2%, ..., k% with
    [k = 3wh // (3wh // 100)], one every [3wh // 100] samples; [k] is at
    least 100 and can be as large as 199, so the percentages may run past
    100%. *)
Theorem X17_encode_progress_lines (width height : Z) (pixels : PixelList) :
  100 <= 3 * width * height ->
  Z.of_nat (length pixels) = width * height ->
  exists bytes (k : nat),
    encode_image_io width height pixels = Ok (bytes, map Z.of_nat (seq 1 k))
    /\ Z.of_nat k = 3 * width * height / (3 * width * height / 100)
    /\ 100 <= Z.of_nat k <= 199.
Proof.
  intros Ht Hlen.
  destruct (progress_count _ Ht) as [Hs Hk].
  set (s := 3 * width * height / 100) in *.
  unfold encode_image_io.
  destruct (add_bits_spec (encode_bits width 16) (BitArray.init []))
    as (b1 & -> & Hwf1 & _); [apply wf_init; reflexivity|]. cbn [bind].
  destruct (add_bits_spec (encode_bits height 16) b1 Hwf1) as (b2 & -> & Hwf2 & _).
  cbn [bind encode_channels]. fold s. rewrite <- (progress_at_0 s).
  do 3 (match goal with
        | Hwf : wf_bitarray ?b
          |- context [encode_channel_loop s ?b (progress_at s ?i) 0 ?ch] =>
            let b' := fresh "b" in
            let Hwf' := fresh "Hwf" in
            destruct (encode_channel_loop_progress s ch Hs b i 0 Hwf)
              as (b' & -> & Hwf'); [lia|]; cbn [bind]; clear Hwf
        end).
  match goal with Hwf : wf_bitarray ?b |- _ => rename b into b5, Hwf into Hwf5 end.
  destruct (to_bytes_spec b5 Hwf5) as (b6 & bytes & -> & _). cbn [bind].
  rewrite !length_map.
  replace (0 + Z.of_nat (length pixels) + Z.of_nat (length pixels)
           + Z.of_nat (length pixels)) with (3 * width * height) by lia.
  exists bytes, (Z.to_nat (3 * width * height / s)).
  split; [reflexivity|]. split; lia.
Qed.

Lemma X17_encode_progress_lines_witness :
  100 <= 3 * 11 * 6
  /\ Z.of_nat (length (repeat (5, 5, 5) 66)) = 11 * 6
  /\ exists bytes (k : nat),
       encode_image_io 11 6 (repeat (5, 5, 5) 66) = Ok (bytes, map Z.of_nat (seq 1 k))
       /\ Z.of_nat k = 3 * 11 * 6 / (3 * 11 * 6 / 100)
       /\ 100 <= Z.of_nat k <= 199.
Proof.
  split; [lia|]. split; [reflexivity|].
  apply (X17_encode_progress_lines 11 6 (repeat (5, 5, 5) 66)); [lia|reflexivity].
Defined.

(** X18.  On any buffer whose header declares [3 * width * height >= 100],
    [decode_image] prints the same lines as the encoder of such an image:
    1%, 2%, ..., k% with [k = 3wh // (3wh // 100)], between 100 and 199. *)
Theorem X18_decode_progress_lines (data : list Z) (width height : Z) :
  BitArray.read_bits (BitArray.init data) 0 16 = Ok width ->
  BitArray.read_bits (BitArray.init data) 16 16 = Ok height ->
  100 <= 3 * width * height ->
  exists pixels (k : nat),
    decode_image_io data = Ok (width, height, pixels, map Z.of_nat (seq 1 k))
    /\ Z.of_nat k = 3 * width * height / (3 * width * height / 100)
    /\ 100 <= Z.of_nat k <= 199.
Proof.
  intros Hw Hh Ht.
  destruct (progress_count _ Ht) as [Hs Hk].
  set (s := 3 * width * height / 100) in *.
  apply read_bits_range in Hw as Rw; [|lia].
  apply read_bits_range in Hh as Rh; [|lia].
  assert (Hn : 0 <= width * height) by (apply Z.mul_nonneg_nonneg; lia).
  unfold decode_image_io. rewrite Hw, Hh. cbn [bind]. fold s.
  unfold decode_channel. rewrite <- (progress_at_0 s).
  set (bits := BitArray.init data). set (n := Z.to_nat (width * height)).
  destruct (decode_channel_loop_progress bits s n Hs 32 0 0 [])
    as (i1 & red & ->); [lia|]. cbn [bind].
  destruct (decode_channel_loop_progress bits s n Hs i1 (0 + Z.of_nat n) 0 [])
    as (i2 & green & ->); [lia|]. cbn [bind].
  destruct (decode_channel_loop_progress bits s n Hs i2
              (0 + Z.of_nat n + Z.of_nat n) 0 [])
    as (i3 & blue & ->); [lia|]. cbn [bind].
  replace (0 + Z.of_nat n + Z.of_nat n + Z.of_nat n) with (3 * width * height)
    by (unfold n; lia).
  exists (zip3 red green blue), (Z.to_nat (3 * width * height / s)).
  split; [reflexivity|]. split; lia.
Qed.

Lemma X18_decode_progress_lines_witness :
  BitArray.read_bits (BitArray.init [0; 11; 0; 6; 77]) 0 16 = Ok 11
  /\ BitArray.read_bits (BitArray.init [0; 11; 0; 6; 77]) 16 16 = Ok 6
  /\ 100 <= 3 * 11 * 6
  /\ exists pixels (k : nat),
       decode_image_io [0; 11; 0; 6; 77] = Ok (11, 6, pixels, map Z.of_nat (seq 1 k))
       /\ Z.of_nat k = 3 * 11 * 6 / (3 * 11 * 6 / 100)
       /\ 100 <= Z.of_nat k <= 199.
Proof.
  split; [reflexivity|]. split; [reflexivity|]. split; [lia|].
  apply (X18_decode_progress_lines [0; 11; 0; 6; 77] 11 6);
    [reflexivity|reflexivity|lia].
Defined.
